(** * Stox: order construction and validation

    A shallow embedding of the order entity of the Stox exchange: the types
    [OrderSide], [OrderType], [OrderStatus] and [Order] and the functions
    [parseStatus], [parseSide], [parseType], [validateQuantity],
    [validatePrice] and [NewOrder].

    The code calls into Go's libraries; what it calls is modelled here
    after the packages' documented behaviour:
    - [strings.TrimSpace] and [strings.ToLower] over byte strings, with
      UTF-8 decoding as package unicode/utf8 does it (an illegal byte is
      read as U+FFFD, width 1) and [unicode.IsSpace];
    - [unicode.ToLower] exactly on ASCII; above ASCII it is a table of the
      Unicode version in use, taken as a parameter;
    - [errors.New] and [fmt.Errorf] as error values carrying their message
      and, for [%w], the wrapped error;
    - [uuid.New] and [time.Now] as reads from a world that is passed along.

    Go strings are byte sequences; Rocq's [string], a sequence of 8-bit
    [ascii], stands for them.  The [int64] arguments are integers in [Z]:
    the code compares them with 0 and stores them, nothing more, so no
    wrap-around arises.  The three enumerations are Go [int]s with [iota]
    constants and are kept as integers. *)

From Stdlib Require Import ZArith Lia Bool Ascii String List.
Import ListNotations.

Local Open Scope string_scope.
Local Open Scope Z_scope.

(** ** Bytes of a string *)

Definition byte_of_ascii (c : ascii) : Z := Z.of_N (N_of_ascii c).

Definition ascii_of_byte (b : Z) : ascii := ascii_of_N (Z.to_N b).

Fixpoint bytes (s : string) : list Z :=
  match s with
  | EmptyString => []
  | String c t => byte_of_ascii c :: bytes t
  end.

Fixpoint of_bytes (p : list Z) : string :=
  match p with
  | [] => EmptyString
  | b :: t => String (ascii_of_byte b) (of_bytes t)
  end.

Definition is_byte (b : Z) : Prop := 0 <= b < 256.

(** ** Package unicode/utf8

    The encoding itself, written with division and remainder instead of
    shifts and masks. *)

Definition RuneError : Z := 0xFFFD.
Definition RuneSelf : Z := 0x80.
Definition MaxRune : Z := 0x10FFFF.

(** A rune that [utf8.EncodeRune] writes as itself: a Unicode scalar value. *)
Definition ValidRune (r : Z) : Prop :=
  0 <= r <= MaxRune /\ ~ (0xD800 <= r <= 0xDFFF).

(** Continuation byte, [locb <= b <= hicb]. *)
Definition cont (b : Z) : bool := (0x80 <=? b) && (b <=? 0xBF).

(** The table [first] of package utf8 for a lead byte [s0 >= RuneSelf]:
    [None] for an illegal lead byte, otherwise the length of the sequence
    and the accepted range of its second byte. *)
Definition first (s0 : Z) : option (nat * Z * Z) :=
  if s0 <? 0xC2 then None
  else if s0 <=? 0xDF then Some (2%nat, 0x80, 0xBF)
  else if s0 =? 0xE0 then Some (3%nat, 0xA0, 0xBF)
  else if s0 <=? 0xEC then Some (3%nat, 0x80, 0xBF)
  else if s0 =? 0xED then Some (3%nat, 0x80, 0x9F)
  else if s0 <=? 0xEF then Some (3%nat, 0x80, 0xBF)
  else if s0 =? 0xF0 then Some (4%nat, 0x90, 0xBF)
  else if s0 <=? 0xF3 then Some (4%nat, 0x80, 0xBF)
  else if s0 =? 0xF4 then Some (4%nat, 0x80, 0x8F)
  else None.

(** [utf8.DecodeRuneInString]: the first rune of [p] and its width in
    bytes; [(RuneError, 0)] on the empty string and [(RuneError, 1)] on an
    encoding that is illegal or cut short. *)
Definition utf8_DecodeRune (p : list Z) : Z * nat :=
  match p with
  | [] => (RuneError, 0%nat)
  | s0 :: p1 =>
    if s0 <? RuneSelf then (s0, 1%nat)
    else
      match first s0 with
      | None => (RuneError, 1%nat)
      | Some (sz, lo, hi) =>
        match p1 with
        | [] => (RuneError, 1%nat)
        | s1 :: p2 =>
          if (s1 <? lo) || (hi <? s1) then (RuneError, 1%nat)
          else if (sz =? 2)%nat then ((s0 - 0xC0) * 64 + (s1 - 0x80), 2%nat)
          else
            match p2 with
            | [] => (RuneError, 1%nat)
            | s2 :: p3 =>
              if negb (cont s2) then (RuneError, 1%nat)
              else if (sz =? 3)%nat
              then ((s0 - 0xE0) * 4096 + (s1 - 0x80) * 64 + (s2 - 0x80), 3%nat)
              else
                match p3 with
                | [] => (RuneError, 1%nat)
                | s3 :: _ =>
                  if negb (cont s3) then (RuneError, 1%nat)
                  else ((s0 - 0xF0) * 262144 + (s1 - 0x80) * 4096
                        + (s2 - 0x80) * 64 + (s3 - 0x80), 4%nat)
                end
            end
        end
      end
  end.

(** [utf8.AppendRune]: the bytes of a rune; a surrogate or a value out of
    range is written as [RuneError]. *)
Definition utf8_EncodeRune (r : Z) : list Z :=
  if (0 <=? r) && (r <=? 0x7F) then [r]
  else if (0 <=? r) && (r <=? 0x7FF) then [0xC0 + r / 64; 0x80 + r mod 64]
  else if (r <? 0) || (MaxRune <? r) || ((0xD800 <=? r) && (r <=? 0xDFFF))
  then [0xEF; 0xBF; 0xBD]
  else if r <=? 0xFFFF
  then [0xE0 + r / 4096; 0x80 + (r / 64) mod 64; 0x80 + r mod 64]
  else [0xF0 + r / 262144; 0x80 + (r / 4096) mod 64;
        0x80 + (r / 64) mod 64; 0x80 + r mod 64].

(** What [for _, c := range s] yields: each rune with the bytes it was
    read from.  The fuel is the length of the string; every step consumes
    at least one byte. *)
Fixpoint chunks_aux (fuel : nat) (p : list Z) : list (Z * list Z) :=
  match fuel, p with
  | S fuel', _ :: _ =>
    let '(r, w) := utf8_DecodeRune p in
    (r, firstn w p) :: chunks_aux fuel' (skipn w p)
  | _, _ => []
  end.

Definition chunks (p : list Z) : list (Z * list Z) :=
  chunks_aux (length p) p.

Definition runes (p : list Z) : list Z := map fst (chunks p).

(** ** Package unicode *)

(** [unicode.IsSpace]: the Latin-1 spaces and the code points with the
    White_Space property. *)
Definition unicode_IsSpace (r : Z) : bool :=
  if (0 <=? r) && (r <=? 0xFF)
  then ((0x09 <=? r) && (r <=? 0x0D)) || (r =? 0x20) || (r =? 0x85) || (r =? 0xA0)
  else (r =? 0x1680) || ((0x2000 <=? r) && (r <=? 0x200A)) || (r =? 0x2028)
       || (r =? 0x2029) || (r =? 0x202F) || (r =? 0x205F) || (r =? 0x3000).

(** Some rows of the lower-case table beyond ASCII: the Latin-1 capitals,
    U+0130 and the Kelvin and Angstrom signs (whose lower case is an ASCII
    or Latin-1 letter).  It is used where a closed instance of the table is
    needed. *)
Definition sampleLower (r : Z) : Z :=
  if (0xC0 <=? r) && (r <=? 0xDE) && negb (r =? 0xD7) then r + 32
  else if r =? 0x130 then 0x69
  else if r =? 0x212A then 0x6B
  else if r =? 0x212B then 0xE5
  else r.

(** ** Errors *)

(** The two error values the code builds: [errors.New] (also what
    [fmt.Errorf] returns without [%w]) and the wrapper [fmt.Errorf]
    returns for [%w]. *)
Inductive error : Type :=
| errorString (msg : string)
| wrapError (msg : string) (err : error).

Definition Error (e : error) : string :=
  match e with
  | errorString msg => msg
  | wrapError msg _ => msg
  end.

Definition errors_New (msg : string) : error := errorString msg.

(** [fmt.Errorf(prefix + "%s", s)] *)
Definition fmt_Errorf_s (prefix s : string) : error :=
  errorString (prefix ++ s)%string.

(** [fmt.Errorf(prefix + "%w", err)] *)
Definition fmt_Errorf_w (prefix : string) (err : error) : error :=
  wrapError (prefix ++ Error err)%string err.

(** ** The outside world: [uuid.New] and [time.Now] *)

Definition UUID : Type := N.
Definition Time : Type := Z.

Record World : Type := mkWorld {
  entropy : nat -> UUID;
  drawn : nat;
  wall : nat -> Time;
  ticks : nat
}.

Definition uuid_New (w : World) : UUID * World :=
  (entropy w (drawn w),
   mkWorld (entropy w) (S (drawn w)) (wall w) (ticks w)).

Definition time_Now (w : World) : Time * World :=
  (wall w (ticks w),
   mkWorld (entropy w) (drawn w) (wall w) (S (ticks w))).

(** ** The order entity *)

Definition OrderSide : Type := Z.
Definition BUY : OrderSide := 0.
Definition SELL : OrderSide := 1.

Definition OrderType : Type := Z.
Definition MARKET : OrderType := 0.
Definition LIMIT : OrderType := 1.

Definition OrderStatus : Type := Z.
Definition PENDING : OrderStatus := 0.
Definition PARTIALLY_FILLED : OrderStatus := 1.
Definition FILLED : OrderStatus := 2.
Definition CANCELLED : OrderStatus := 3.
Definition REJECTED : OrderStatus := 4.

Record Order : Type := mkOrder {
  OrderID : UUID;
  Symbol : string;
  Side : OrderSide;
  Type_ : OrderType;
  Quantity : Z;
  RemainingQuantity : Z;
  Price : Z;
  Status : OrderStatus;
  CreateAt : Time;
  UpdatedAt : Time
}.

(** A world to run the code in at concrete inputs. *)
Definition w0 : World := mkWorld (fun _ => 7%N) 0 (fun n => 1000 + Z.of_nat n) 0.

(** ** Tactics *)

(** Case analysis on the integer tests of a goal. *)
Ltac zcase :=
  match goal with
  | |- context [Z.ltb ?a ?b] => destruct (Z.ltb_spec a b)
  | |- context [Z.leb ?a ?b] => destruct (Z.leb_spec a b)
  | |- context [Z.eqb ?a ?b] => destruct (Z.eqb_spec a b)
  | |- context [Nat.eqb ?a ?b] => destruct (Nat.eqb_spec a b)
  end; cbn [andb orb negb fst snd length].

Ltac zcases := repeat zcase.

(** Case analysis on everything a hypothesis branches on, and the same
    choices replayed in the goal. *)
Ltac split_match_in H :=
  repeat match type of H with
         | context [match ?x with _ => _ end] => destruct x eqn:?
         end.

Ltac replay :=
  repeat match goal with
         | E : ?x = _ |- context [match ?x with _ => _ end] => rewrite E
         end.

(** Case analysis on the comparisons of a string with literals. *)
Ltac by_keyword k :=
  repeat match goal with
         | |- context [String.eqb k ?lit] =>
           destruct (String.eqb_spec k lit)
         end.

Section Stox.

(** [unicode.ToLower] looks a rune above ASCII up in the case tables of the
    Unicode version the Go release ships.  The tables are not part of the
    repository: the lookup is a parameter. *)
Variable lowerTable : Z -> Z.

Definition unicode_ToLower (r : Z) : Z :=
  if r <=? 0x7F
  then (if (0x41 <=? r) && (r <=? 0x5A) then r + 32 else r)
  else lowerTable r.

(** ** Package strings

    Both functions are given by what the package documents: the result in
    terms of the runes that ranging over the string yields.  On a string
    of ASCII bytes they are the byte-wise loops of the library's fast
    paths, [asciiLower] and [trimAsciiSpaces] below. *)

(** [strings.Map] as [ToLower] calls it: every rune of the string is
    mapped and written back; a byte that is not part of a legal encoding is
    read as [RuneError]; a negative result is dropped. *)
Definition MapBytes (mapping : Z -> Z) (p : list Z) : list Z :=
  flat_map (fun r => let r' := mapping r in
                     if r' <? 0 then [] else utf8_EncodeRune r') (runes p).

Definition ToLowerBytes (p : list Z) : list Z := MapBytes unicode_ToLower p.

(** [strings.TrimLeftFunc] with [unicode.IsSpace], on the chunks. *)
Fixpoint dropSpaces (cs : list (Z * list Z)) : list (Z * list Z) :=
  match cs with
  | [] => []
  | c :: cs' => if unicode_IsSpace (fst c) then dropSpaces cs' else cs
  end.

Definition trimSpaces (cs : list (Z * list Z)) : list (Z * list Z) :=
  rev (dropSpaces (rev (dropSpaces cs))).

(** [strings.TrimSpace]: the slice of the string between its first and its
    last rune that is not white space. *)
Definition TrimSpaceBytes (p : list Z) : list Z :=
  concat (map snd (trimSpaces (chunks p))).

Definition strings_TrimSpace (s : string) : string :=
  of_bytes (TrimSpaceBytes (bytes s)).

(** [strings.ToLower]: the string with every rune mapped to its lower
    case. *)
Definition strings_ToLower (s : string) : string :=
  of_bytes (ToLowerBytes (bytes s)).

(** The fast paths: ['A'..'Z'] shifted by ['a' - 'A'], and the table
    [asciiSpace] of package strings. *)
Definition is_ascii (b : Z) : Prop := 0 <= b < 0x80.

Definition asciiLower (b : Z) : Z :=
  if (0x41 <=? b) && (b <=? 0x5A) then b + 32 else b.

Definition asciiSpace (b : Z) : bool :=
  ((0x09 <=? b) && (b <=? 0x0D)) || (b =? 0x20).

Fixpoint dropAsciiSpaces (p : list Z) : list Z :=
  match p with
  | [] => []
  | b :: t => if asciiSpace b then dropAsciiSpaces t else p
  end.

Definition trimAsciiSpaces (p : list Z) : list Z :=
  rev (dropAsciiSpaces (rev (dropAsciiSpaces p))).

(** The string the three parsers switch on. *)
Definition normalize (s : string) : string :=
  strings_ToLower (strings_TrimSpace s).

Definition parseStatus (s : string) : OrderStatus * option error :=
  let k := normalize s in
  if (k =? "pending")%string then (PENDING, None)
  else if (k =? "partially_filled")%string then (PARTIALLY_FILLED, None)
  else if (k =? "filled")%string then (FILLED, None)
  else if (k =? "canceled")%string then (CANCELLED, None)
  else if (k =? "rejected")%string then (REJECTED, None)
  else (0, Some (fmt_Errorf_s "invalid order status: " s)).

Definition parseSide (s : string) : OrderSide * option error :=
  let k := normalize s in
  if (k =? "buy")%string then (BUY, None)
  else if (k =? "sell")%string then (SELL, None)
  else (0, Some (fmt_Errorf_s "invalid order side: " s)).

Definition parseType (s : string) : OrderType * option error :=
  let k := normalize s in
  if (k =? "market")%string then (MARKET, None)
  else if (k =? "limit")%string then (LIMIT, None)
  else (0, Some (fmt_Errorf_s "invalid order type: " s)).

Definition validateQuantity (q : Z) : bool := 0 <? q.

Definition validatePrice (t : OrderType) (p : Z) : bool :=
  if (t =? LIMIT) && (p <=? 0) then false else true.

(** [NewOrder] returns Go's pair of a pointer and an error, each of which
    may be nil, and the world after the calls it made. *)
Definition NewOrder (symbol orderType orderSide orderStatus : string)
  (qty price : Z) (w : World) : (option Order * option error) * World :=
  match parseStatus orderStatus with
  | (_, Some err) => ((None, Some (fmt_Errorf_w "failed to create order: " err)), w)
  | (status, None) =>
    match parseSide orderSide with
    | (_, Some err) => ((None, Some (fmt_Errorf_w "failed to create order: " err)), w)
    | (side, None) =>
      match parseType orderType with
      | (_, Some err) => ((None, Some (fmt_Errorf_w "failed to create order: " err)), w)
      | (otype, None) =>
        if negb (validateQuantity qty) then
          let err := errors_New "qunatity must be greater than 0" in
          ((None, Some (fmt_Errorf_w "failed to create order: " err)), w)
        else if negb (validatePrice otype price) then
          let err := errors_New "price must be greater than 0" in
          ((None, Some (fmt_Errorf_w "failed to create order: " err)), w)
        else
          let '(id, w1) := uuid_New w in
          let '(created, w2) := time_Now w1 in
          let '(updated, w3) := time_Now w2 in
          ((Some {| OrderID := id;
                    Type_ := otype;
                    Symbol := symbol;
                    Side := side;
                    Status := status;
                    Quantity := qty;
                    RemainingQuantity := qty;
                    Price := price;
                    CreateAt := created;
                    UpdatedAt := updated |}, None), w3)
      end
    end
  end.

(** All five checks of [NewOrder] pass. *)
Definition validationPasses (orderType orderSide orderStatus : string)
  (qty price : Z) : bool :=
  match snd (parseStatus orderStatus), snd (parseSide orderSide),
        snd (parseType orderType) with
  | None, None, None =>
    validateQuantity qty && validatePrice (fst (parseType orderType)) price
  | _, _, _ => false
  end.

(** The order [NewOrder] builds once the checks have passed. *)
Definition builtOrder (symbol orderType orderSide orderStatus : string)
  (qty price : Z) (w : World) : Order :=
  {| OrderID := entropy w (drawn w);
     Symbol := symbol;
     Side := fst (parseSide orderSide);
     Type_ := fst (parseType orderType);
     Quantity := qty;
     RemainingQuantity := qty;
     Price := price;
     Status := fst (parseStatus orderStatus);
     CreateAt := wall w (ticks w);
     UpdatedAt := wall w (S (ticks w)) |}.

(** The world after a successful [NewOrder]: one identifier drawn, the
    clock read twice. *)
Definition afterNewOrder (w : World) : World :=
  mkWorld (entropy w) (S (drawn w)) (wall w) (S (S (ticks w))).

(** A sequence of chunks without white space at either end. *)
Definition noLeadingSpace (cs : list (Z * list Z)) : Prop :=
  match cs with
  | [] => True
  | c :: _ => unicode_IsSpace (fst c) = false
  end.

Definition Trimmed (cs : list (Z * list Z)) : Prop :=
  noLeadingSpace cs /\ noLeadingSpace (rev cs).

(** Two calls of a parser agree: both return the same value and a nil
    error, or both return an error, each quoting its own argument. *)
Definition agree (prefix : string) (parse : string -> Z * option error)
  (s s' : string) : Prop :=
  (snd (parse s) = None /\ parse s' = parse s) \/
  (parse s = (0, Some (fmt_Errorf_s prefix s)) /\
   parse s' = (0, Some (fmt_Errorf_s prefix s'))).

(** ** The rest of the program *)

(** [errors.Unwrap]: the error a [%w] wrapper carries, nil otherwise. *)
Definition Unwrap (e : error) : option error :=
  match e with
  | errorString _ => None
  | wrapError _ inner => Some inner
  end.

Definition newline : string := String (ascii_of_nat 10) EmptyString.

(** [main]: what it writes to standard output, and the world afterwards.
    [fmt.Println(err)] writes the message of the error and a newline;
    how [fmt.Printf("%+v", order)] lays an order out is left open. *)
Definition main (printOrder : option Order -> string) (w : World)
  : string * World :=
  match NewOrder "AAPL" "LIMIT" "BUY" "pending" 10 0 w with
  | ((_, Some err), w') => ((Error err ++ newline)%string, w')
  | ((order, None), w') => (printOrder order, w')
  end.

(** A string of ASCII white space only; the empty string is one. *)
Definition blank (s : string) : Prop :=
  Forall (fun b => asciiSpace b = true) (bytes s).

(** A world whose identifiers never repeat and whose clock advances. *)
Definition w1 : World := mkWorld N.of_nat 0 (fun n => 1000 + Z.of_nat n) 0.

(** * Properties *)

(** ** Bytes *)

Lemma byte_of_ascii_range c : is_byte (byte_of_ascii c).
Proof.
  unfold is_byte, byte_of_ascii.
  pose proof (N_ascii_bounded c). lia.
Qed.

Lemma ascii_of_byte_of_ascii c : ascii_of_byte (byte_of_ascii c) = c.
Proof.
  unfold ascii_of_byte, byte_of_ascii.
  rewrite N2Z.id. apply ascii_N_embedding.
Qed.

Lemma byte_of_ascii_of_byte b : is_byte b -> byte_of_ascii (ascii_of_byte b) = b.
Proof.
  unfold is_byte, ascii_of_byte, byte_of_ascii. intros H.
  rewrite N_ascii_embedding by lia. lia.
Qed.

Lemma of_bytes_bytes s : of_bytes (bytes s) = s.
Proof.
  induction s as [|c s IH]; simpl; [reflexivity|].
  now rewrite ascii_of_byte_of_ascii, IH.
Qed.

Lemma bytes_of_bytes p : Forall is_byte p -> bytes (of_bytes p) = p.
Proof.
  induction 1 as [|b p Hb _ IH]; simpl; [reflexivity|].
  now rewrite byte_of_ascii_of_byte, IH.
Qed.

Lemma bytes_range s : Forall is_byte (bytes s).
Proof.
  induction s as [|c s IH]; simpl; constructor; auto using byte_of_ascii_range.
Qed.

(** ** Decoding one rune *)

Lemma first_cases s0 sz lo hi :
  first s0 = Some (sz, lo, hi) ->
  (sz = 2%nat /\ 0xC2 <= s0 <= 0xDF /\ lo = 0x80 /\ hi = 0xBF) \/
  (sz = 3%nat /\ s0 = 0xE0 /\ lo = 0xA0 /\ hi = 0xBF) \/
  (sz = 3%nat /\ 0xE1 <= s0 <= 0xEF /\ s0 <> 0xED /\ lo = 0x80 /\ hi = 0xBF) \/
  (sz = 3%nat /\ s0 = 0xED /\ lo = 0x80 /\ hi = 0x9F) \/
  (sz = 4%nat /\ s0 = 0xF0 /\ lo = 0x90 /\ hi = 0xBF) \/
  (sz = 4%nat /\ 0xF1 <= s0 <= 0xF3 /\ lo = 0x80 /\ hi = 0xBF) \/
  (sz = 4%nat /\ s0 = 0xF4 /\ lo = 0x80 /\ hi = 0x8F).
Proof.
  unfold first. zcases; intros Hfirst; inversion Hfirst; subst; lia.
Qed.

Lemma utf8_DecodeRune_width p :
  p <> [] ->
  (1 <= snd (utf8_DecodeRune p) <= length p)%nat /\ (snd (utf8_DecodeRune p) <= 4)%nat.
Proof.
  destruct p as [|s0 p]; [congruence|]. intros _.
  unfold utf8_DecodeRune.
  destruct (s0 <? RuneSelf); [simpl; lia|].
  destruct (first s0) as [[[sz lo] hi]|]; [|simpl; lia].
  destruct p as [|s1 p]; [simpl; lia|].
  destruct ((s1 <? lo) || (hi <? s1)); [simpl; lia|].
  destruct (sz =? 2)%nat; [simpl; lia|].
  destruct p as [|s2 p]; [simpl; lia|].
  destruct (negb (cont s2)); [simpl; lia|].
  destruct (sz =? 3)%nat; [simpl; lia|].
  destruct p as [|s3 p]; [simpl; lia|].
  destruct (negb (cont s3)); simpl; lia.
Qed.

Lemma utf8_DecodeRune_valid p :
  Forall is_byte p -> ValidRune (fst (utf8_DecodeRune p)).
Proof.
  assert (E : ValidRune RuneError) by (unfold ValidRune, RuneError, MaxRune; lia).
  intros Hp. destruct p as [|s0 p]; [exact E|].
  inversion Hp as [|? ? H0 Hp1]; subst. unfold is_byte in H0.
  unfold utf8_DecodeRune.
  destruct (Z.ltb_spec s0 RuneSelf) as [L0|L0];
    [unfold ValidRune, RuneSelf, MaxRune in *; simpl; lia|].
  destruct (first s0) as [[[sz lo] hi]|] eqn:F; [|exact E].
  apply first_cases in F.
  destruct p as [|s1 p]; [exact E|].
  destruct (Z.ltb_spec s1 lo); cbn [orb]; [exact E|].
  destruct (Z.ltb_spec hi s1); [exact E|].
  destruct (Nat.eqb_spec sz 2).
  { unfold ValidRune, MaxRune; simpl; lia. }
  destruct p as [|s2 p]; [exact E|].
  unfold cont.
  destruct (Z.leb_spec 0x80 s2); cbn [andb negb]; [|exact E].
  destruct (Z.leb_spec s2 0xBF); cbn [andb negb]; [|exact E].
  destruct (Nat.eqb_spec sz 3).
  { unfold ValidRune, MaxRune; simpl; lia. }
  destruct p as [|s3 p]; [exact E|].
  destruct (Z.leb_spec 0x80 s3); cbn [andb negb]; [|exact E].
  destruct (Z.leb_spec s3 0xBF); cbn [andb negb]; [|exact E].
  unfold ValidRune, MaxRune; simpl; lia.
Qed.

(** ** Ranging over a string *)

Lemma chunks_aux_nil n : chunks_aux n [] = [].
Proof. destruct n; reflexivity. Qed.

Lemma chunks_aux_fuel n : forall m p,
  (length p <= n)%nat -> (length p <= m)%nat ->
  chunks_aux n p = chunks_aux m p.
Proof.
  induction n as [|n IH]; intros m p Hn Hm.
  - destruct p; [|simpl in Hn; lia]. now rewrite !chunks_aux_nil.
  - destruct p as [|s0 p]; [now rewrite !chunks_aux_nil|].
    destruct m as [|m]; [simpl in Hm; lia|].
    cbn [chunks_aux].
    pose proof (utf8_DecodeRune_width (s0 :: p)) as W.
    destruct (utf8_DecodeRune (s0 :: p)) as [r w]. cbn [snd] in W.
    assert (s0 :: p <> []) as Hne by discriminate. specialize (W Hne).
    f_equal. apply IH; rewrite length_skipn; cbn [length] in *; lia.
Qed.

Lemma chunks_nil : chunks [] = [].
Proof. reflexivity. Qed.

Lemma chunks_step p :
  p <> [] ->
  chunks p = (fst (utf8_DecodeRune p), firstn (snd (utf8_DecodeRune p)) p)
             :: chunks (skipn (snd (utf8_DecodeRune p)) p).
Proof.
  intros Hne. pose proof (utf8_DecodeRune_width p Hne) as W.
  unfold chunks at 1. destruct p as [|s0 p]; [congruence|].
  cbn [length chunks_aux].
  destruct (utf8_DecodeRune (s0 :: p)) as [r w]. cbn [fst snd] in *.
  f_equal. apply chunks_aux_fuel; rewrite length_skipn; cbn [length] in *; lia.
Qed.

(** Induction along the steps of the range loop. *)
Lemma range_ind (P : list Z -> Prop) :
  P [] ->
  (forall p, p <> [] -> P (skipn (snd (utf8_DecodeRune p)) p) -> P p) ->
  forall p, P p.
Proof.
  intros Hnil Hstep p.
  remember (length p) as n eqn:Hn.
  revert p Hn. induction n as [n IH] using lt_wf_ind. intros p Hn.
  destruct p as [|s0 p]; [exact Hnil|].
  apply Hstep; [discriminate|].
  pose proof (utf8_DecodeRune_width (s0 :: p)) as W.
  assert (s0 :: p <> []) as Hne by discriminate. specialize (W Hne).
  eapply IH; [|reflexivity]. rewrite length_skipn. subst n. cbn [length] in *. lia.
Qed.

Lemma chunks_concat p : concat (map snd (chunks p)) = p.
Proof.
  induction p as [|p Hne IH] using range_ind; [reflexivity|].
  rewrite (chunks_step p Hne). cbn [map concat snd].
  rewrite IH. apply firstn_skipn.
Qed.

Lemma Forall_skipn_bytes (P : Z -> Prop) n p : Forall P p -> Forall P (skipn n p).
Proof.
  intros H. rewrite <- (firstn_skipn n p) in H.
  now apply Forall_app in H.
Qed.

Lemma chunks_valid p :
  Forall is_byte p -> Forall ValidRune (runes p).
Proof.
  unfold runes.
  induction p as [|p Hne IH] using range_ind; intros Hp; [constructor|].
  rewrite (chunks_step p Hne). cbn [map fst]. constructor.
  - now apply utf8_DecodeRune_valid.
  - apply IH. now apply Forall_skipn_bytes.
Qed.

(** The chunks of a string from a chunk boundary on are the chunks of the
    remainder. *)
Lemma chunks_suffix a : forall p c,
  chunks p = (a ++ c)%list -> chunks (concat (map snd c)) = c.
Proof.
  induction a as [|x a IH]; intros p c H.
  - simpl in H. rewrite <- H, chunks_concat. reflexivity.
  - destruct p as [|s0 p]; [discriminate|].
    rewrite chunks_step in H by discriminate.
    inversion H; subst. eapply IH; eassumption.
Qed.

(** ** Decoding looks at no byte beyond the rune *)

Lemma utf8_DecodeRune_wide p r w q :
  utf8_DecodeRune p = (r, w) -> (2 <= w)%nat ->
  utf8_DecodeRune (firstn w p ++ q) = (r, w).
Proof.
  intros H Hw.
  destruct p as [|s0 [|s1 [|s2 [|s3 p]]]];
    unfold utf8_DecodeRune in H; split_match_in H;
    inversion H; subst; try lia;
    cbn [firstn app]; unfold utf8_DecodeRune; replay; reflexivity.
Qed.

Lemma utf8_DecodeRune_narrow s0 t r k :
  utf8_DecodeRune (s0 :: t) = (r, 1%nat) ->
  utf8_DecodeRune (s0 :: firstn k t) = (r, 1%nat).
Proof.
  intros H.
  destruct t as [|s1 [|s2 [|s3 t]]]; destruct k as [|[|[|k]]];
    cbn [firstn]; try exact H;
    unfold utf8_DecodeRune in H |- *; split_match_in H;
    inversion H; subst; replay; try reflexivity; try discriminate.
Qed.

Lemma firstn_exact {A} (l1 l2 : list A) : firstn (length l1) (l1 ++ l2) = l1.
Proof. induction l1 as [|x l1 IH]; simpl; [now destruct l2|now rewrite IH]. Qed.

Lemma skipn_exact {A} (l1 l2 : list A) : skipn (length l1) (l1 ++ l2) = l2.
Proof. induction l1 as [|x l1 IH]; simpl; auto. Qed.

Lemma utf8_DecodeRune_truncate u q q2 r :
  u <> [] ->
  utf8_DecodeRune (u ++ q ++ q2) = (r, length u) ->
  utf8_DecodeRune (u ++ q) = (r, length u).
Proof.
  intros Hne H.
  destruct u as [|s0 [|s1 u]]; [congruence| |].
  - cbn [app length] in *.
    rewrite <- (firstn_exact q q2) at 1.
    now apply utf8_DecodeRune_narrow.
  - pose proof (utf8_DecodeRune_wide _ _ _ q H) as W.
    rewrite firstn_exact in W.
    apply W. cbn [length]. lia.
Qed.

(** The chunks of a string up to a chunk boundary are the chunks of that
    part alone. *)
Lemma chunks_prefix t : forall p b,
  chunks p = (t ++ b)%list -> chunks (concat (map snd t)) = t.
Proof.
  induction t as [|x t IH]; intros p b H; [reflexivity|].
  destruct p as [|s0 p]; [discriminate|].
  assert (Hne : s0 :: p <> []) by discriminate.
  pose proof (utf8_DecodeRune_width _ Hne) as [[W1 W2] _].
  pose proof (chunks_concat (s0 :: p)) as Hcat.
  rewrite H in Hcat. cbn [app map concat] in Hcat.
  rewrite (chunks_step _ Hne) in H.
  destruct (utf8_DecodeRune (s0 :: p)) as [r w] eqn:D. cbn [fst snd] in *.
  inversion H as [[Hx Hrest]]. clear H.
  specialize (IH _ _ Hrest).
  cbn [map concat snd].
  set (u := firstn w (s0 :: p)) in *.
  set (q := concat (map snd t)) in *.
  assert (Hu : length u = w) by (subst u; rewrite length_firstn; lia).
  assert (Hune : u <> []) by (intros E; rewrite E in Hu; simpl in Hu; lia).
  assert (Dq : utf8_DecodeRune (u ++ q) = (r, length u)).
  { apply utf8_DecodeRune_truncate with (q2 := concat (map snd b)); [exact Hune|].
    rewrite map_app, concat_app in Hcat. subst x. cbn [snd] in Hcat.
    fold q in Hcat. rewrite Hcat, Hu. exact D. }
  rewrite chunks_step.
  - rewrite Dq. cbn [fst snd].
    rewrite firstn_exact, skipn_exact.
    rewrite IH. subst x. reflexivity.
  - destruct u; [congruence|discriminate].
Qed.

Lemma chunks_infix a t b p :
  chunks p = (a ++ t ++ b)%list -> chunks (concat (map snd t)) = t.
Proof.
  intros H. apply chunks_suffix in H. eapply chunks_prefix. exact H.
Qed.

(** ** Encoding and decoding *)

Lemma utf8_EncodeRune_range r : Forall is_byte (utf8_EncodeRune r).
Proof.
  unfold utf8_EncodeRune, is_byte, MaxRune.
  zcases; repeat constructor; Z.to_euclidean_division_equations; lia.
Qed.

Lemma utf8_EncodeRune_nonempty r : utf8_EncodeRune r <> [].
Proof.
  unfold utf8_EncodeRune. zcases; discriminate.
Qed.

Lemma utf8_DecodeRune_EncodeRune r q :
  ValidRune r ->
  utf8_DecodeRune (utf8_EncodeRune r ++ q) = (r, length (utf8_EncodeRune r)).
Proof.
  unfold ValidRune, MaxRune. intros [Hr Hs].
  unfold utf8_EncodeRune, MaxRune.
  destruct (Z.leb_spec 0 r); [|lia]. cbn [andb].
  destruct (Z.leb_spec r 0x7F).
  { cbn [app length]. unfold utf8_DecodeRune, RuneSelf.
    destruct (Z.ltb_spec r 0x80); [reflexivity|lia]. }
  destruct (Z.leb_spec r 0x7FF).
  { cbn [app length]. unfold utf8_DecodeRune, RuneSelf, first.
    pose proof (Z.div_mod r 64 ltac:(lia)) as E.
    pose proof (Z.mod_pos_bound r 64 ltac:(lia)) as B.
    revert E B. generalize (r / 64) (r mod 64). intros a b E B.
    zcases; try lia; f_equal; lia. }
  destruct (Z.ltb_spec r 0); [lia|].
  destruct (Z.ltb_spec 0x10FFFF r); [lia|]. cbn [orb].
  destruct (Z.leb_spec 0xD800 r); cbn [andb].
  { destruct (Z.leb_spec r 0xDFFF); [lia|].
    destruct (Z.leb_spec r 0xFFFF).
    - cbn [app length]. unfold utf8_DecodeRune, RuneSelf, first, cont.
      pose proof (Z.div_mod r 64 ltac:(lia)) as E.
      pose proof (Z.mod_pos_bound r 64 ltac:(lia)) as B.
      pose proof (Z.div_mod (r / 64) 64 ltac:(lia)) as E'.
      pose proof (Z.mod_pos_bound (r / 64) 64 ltac:(lia)) as B'.
      assert (Q : r / 4096 = r / 64 / 64) by (rewrite Z.div_div by lia; reflexivity).
      rewrite Q. revert E B E' B'.
      generalize (r / 64 / 64) ((r / 64) mod 64) (r mod 64). 
      generalize (r / 64). intros m a b c E B E' B'.
      zcases; try lia; f_equal; lia.
    - cbn [app length]. unfold utf8_DecodeRune, RuneSelf, first, cont.
      pose proof (Z.div_mod r 64 ltac:(lia)) as E.
      pose proof (Z.mod_pos_bound r 64 ltac:(lia)) as B.
      pose proof (Z.div_mod (r / 64) 64 ltac:(lia)) as E'.
      pose proof (Z.mod_pos_bound (r / 64) 64 ltac:(lia)) as B'.
      pose proof (Z.div_mod (r / 64 / 64) 64 ltac:(lia)) as E''.
      pose proof (Z.mod_pos_bound (r / 64 / 64) 64 ltac:(lia)) as B''.
      assert (Q : r / 4096 = r / 64 / 64) by (rewrite Z.div_div by lia; reflexivity).
      assert (Q' : r / 262144 = r / 64 / 64 / 64)
        by (rewrite !Z.div_div by lia; reflexivity).
      rewrite Q', Q. revert E B E' B' E'' B''.
      generalize (r / 64 / 64 / 64) ((r / 64 / 64) mod 64)
                 ((r / 64) mod 64) (r mod 64).
      generalize (r / 64 / 64). generalize (r / 64).
      intros m1 m2 a b c d E B E' B' E'' B''.
      zcases; try lia; f_equal; lia. }
  destruct (Z.leb_spec r 0xFFFF); [|lia].
  cbn [app length]. unfold utf8_DecodeRune, RuneSelf, first, cont.
  pose proof (Z.div_mod r 64 ltac:(lia)) as E.
  pose proof (Z.mod_pos_bound r 64 ltac:(lia)) as B.
  pose proof (Z.div_mod (r / 64) 64 ltac:(lia)) as E'.
  pose proof (Z.mod_pos_bound (r / 64) 64 ltac:(lia)) as B'.
  assert (Q : r / 4096 = r / 64 / 64) by (rewrite Z.div_div by lia; reflexivity).
  rewrite Q. revert E B E' B'.
  generalize (r / 64 / 64) ((r / 64) mod 64) (r mod 64). 
  generalize (r / 64). intros m a b c E B E' B'.
  zcases; try lia; f_equal; lia.
Qed.

(** ** ASCII strings *)

Lemma chunks_ascii p :
  Forall is_ascii p -> chunks p = map (fun b => (b, [b])) p.
Proof.
  induction 1 as [|b p Hb _ IH]; [reflexivity|].
  rewrite chunks_step by discriminate.
  unfold utf8_DecodeRune, RuneSelf. unfold is_ascii in Hb.
  destruct (Z.ltb_spec b 0x80); [|lia].
  cbn [fst snd firstn skipn map]. now rewrite IH.
Qed.

Lemma dropAsciiSpaces_ascii p : Forall is_ascii p -> Forall is_ascii (dropAsciiSpaces p).
Proof.
  induction 1 as [|b p Hb Hp IH]; [constructor|].
  cbn [dropAsciiSpaces]. destruct (asciiSpace b); [exact IH|now constructor].
Qed.

Lemma dropSpaces_ascii p :
  Forall is_ascii p ->
  dropSpaces (map (fun b => (b, [b])) p)
  = map (fun b => (b, [b])) (dropAsciiSpaces p).
Proof.
  induction 1 as [|b p Hb _ IH]; [reflexivity|].
  cbn [map dropSpaces dropAsciiSpaces fst].
  replace (unicode_IsSpace b) with (asciiSpace b).
  - destruct (asciiSpace b); [exact IH|reflexivity].
  - unfold is_ascii in Hb. unfold unicode_IsSpace, asciiSpace.
    destruct (Z.leb_spec 0 b); [|lia].
    destruct (Z.leb_spec b 0xFF); [|lia]. cbn [andb].
    destruct (Z.eqb_spec b 0x85); [lia|].
    destruct (Z.eqb_spec b 0xA0); [lia|].
    now rewrite !orb_false_r.
Qed.

Lemma TrimSpaceBytes_ascii p :
  Forall is_ascii p -> TrimSpaceBytes p = trimAsciiSpaces p.
Proof.
  intros Hp. unfold TrimSpaceBytes, trimSpaces, trimAsciiSpaces.
  rewrite (chunks_ascii p Hp), (dropSpaces_ascii p Hp).
  pose proof (dropAsciiSpaces_ascii p Hp) as H1.
  rewrite <- map_rev, dropSpaces_ascii by now apply Forall_rev.
  rewrite <- map_rev, map_map. cbn [snd].
  generalize (rev (dropAsciiSpaces (rev (dropAsciiSpaces p)))) as l.
  induction l as [|b l IH]; cbn [map concat app]; congruence.
Qed.

Lemma ToLowerBytes_ascii p :
  Forall is_ascii p -> ToLowerBytes p = map asciiLower p.
Proof.
  intros Hp. unfold ToLowerBytes, MapBytes, runes.
  rewrite (chunks_ascii p Hp).
  induction Hp as [|b p Hb _ IH]; [reflexivity|].
  cbn [map flat_map fst]. rewrite IH.
  unfold is_ascii in Hb. unfold unicode_ToLower, asciiLower, utf8_EncodeRune.
  destruct (Z.leb_spec b 0x7F); [|lia].
  destruct (Z.leb_spec 0x41 b); destruct (Z.leb_spec b 0x5A); cbn [andb];
    zcases; try lia; reflexivity.
Qed.

(** ** Constructing an order *)

Lemma NewOrder_accepts symbol orderType orderSide orderStatus qty price w :
  validationPasses orderType orderSide orderStatus qty price = true ->
  NewOrder symbol orderType orderSide orderStatus qty price w =
  ((Some (builtOrder symbol orderType orderSide orderStatus qty price w), None),
   afterNewOrder w).
Proof.
  unfold validationPasses, NewOrder, builtOrder, afterNewOrder.
  destruct (parseStatus orderStatus) as [st [e1|]]; simpl; try discriminate.
  destruct (parseSide orderSide) as [sd [e2|]]; simpl; try discriminate.
  destruct (parseType orderType) as [ty [e3|]]; simpl; try discriminate.
  intros H. apply andb_prop in H as [Hq Hp].
  rewrite Hq, Hp. reflexivity.
Qed.

Lemma NewOrder_rejects symbol orderType orderSide orderStatus qty price w :
  validationPasses orderType orderSide orderStatus qty price = false ->
  exists err,
    NewOrder symbol orderType orderSide orderStatus qty price w =
    ((None, Some err), w).
Proof.
  unfold validationPasses, NewOrder.
  destruct (parseStatus orderStatus) as [st [e1|]]; simpl; eauto.
  destruct (parseSide orderSide) as [sd [e2|]]; simpl; eauto.
  destruct (parseType orderType) as [ty [e3|]]; simpl; eauto.
  destruct (validateQuantity qty); simpl; eauto.
  destruct (validatePrice ty price); simpl; eauto.
  discriminate.
Qed.

(** What a returned order tells about the call that built it. *)
Lemma NewOrder_returns symbol orderType orderSide orderStatus qty price w o :
  fst (fst (NewOrder symbol orderType orderSide orderStatus qty price w)) = Some o ->
  validationPasses orderType orderSide orderStatus qty price = true /\
  o = builtOrder symbol orderType orderSide orderStatus qty price w.
Proof.
  intros H.
  destruct (validationPasses orderType orderSide orderStatus qty price) eqn:V.
  - rewrite (NewOrder_accepts symbol _ _ _ _ _ w V) in H. simpl in H.
    split; congruence.
  - destruct (NewOrder_rejects symbol _ _ _ _ _ w V) as [err E].
    rewrite E in H. discriminate.
Qed.

Lemma validationPasses_inv orderType orderSide orderStatus qty price :
  validationPasses orderType orderSide orderStatus qty price = true ->
  snd (parseStatus orderStatus) = None /\
  snd (parseSide orderSide) = None /\
  snd (parseType orderType) = None /\
  0 < qty /\
  validatePrice (fst (parseType orderType)) price = true.
Proof.
  unfold validationPasses, validateQuantity.
  destruct (snd (parseStatus orderStatus)); try discriminate.
  destruct (snd (parseSide orderSide)); try discriminate.
  destruct (snd (parseType orderType)); try discriminate.
  intros H. apply andb_prop in H as [Hq Hp].
  apply Z.ltb_lt in Hq. auto.
Qed.

(** ** The parsers *)

Lemma parseStatus_value s :
  (normalize s = "pending" /\ parseStatus s = (PENDING, None)) \/
  (normalize s = "partially_filled" /\ parseStatus s = (PARTIALLY_FILLED, None)) \/
  (normalize s = "filled" /\ parseStatus s = (FILLED, None)) \/
  (normalize s = "canceled" /\ parseStatus s = (CANCELLED, None)) \/
  (normalize s = "rejected" /\ parseStatus s = (REJECTED, None)) \/
  (normalize s <> "pending" /\ normalize s <> "partially_filled" /\
   normalize s <> "filled" /\ normalize s <> "canceled" /\
   normalize s <> "rejected" /\
   parseStatus s = (0, Some (fmt_Errorf_s "invalid order status: " s))).
Proof.
  unfold parseStatus. generalize (normalize s) as k. intros k.
  by_keyword k; tauto.
Qed.

Lemma parseSide_value s :
  (normalize s = "buy" /\ parseSide s = (BUY, None)) \/
  (normalize s = "sell" /\ parseSide s = (SELL, None)) \/
  (normalize s <> "buy" /\ normalize s <> "sell" /\
   parseSide s = (0, Some (fmt_Errorf_s "invalid order side: " s))).
Proof.
  unfold parseSide. generalize (normalize s) as k. intros k.
  by_keyword k; tauto.
Qed.

Lemma parseType_value s :
  (normalize s = "market" /\ parseType s = (MARKET, None)) \/
  (normalize s = "limit" /\ parseType s = (LIMIT, None)) \/
  (normalize s <> "market" /\ normalize s <> "limit" /\
   parseType s = (0, Some (fmt_Errorf_s "invalid order type: " s))).
Proof.
  unfold parseType. generalize (normalize s) as k. intros k.
  by_keyword k; tauto.
Qed.

(** ** Construction *)

(** C1, as amended: the status of a constructed order is the one its
    [orderStatus] argument names, and it is PENDING exactly when that
    argument trims and lower-cases to "pending"; when validation passes
    [NewOrder] returns an order and a nil error, when it fails an error
    and no order. *)
Theorem NewOrder_status_from_argument
  symbol orderType orderSide orderStatus qty price w :
  (validationPasses orderType orderSide orderStatus qty price = true ->
   exists o w',
     NewOrder symbol orderType orderSide orderStatus qty price w
     = ((Some o, None), w') /\
     Status o = fst (parseStatus orderStatus) /\
     (Status o = PENDING <-> normalize orderStatus = "pending")) /\
  (validationPasses orderType orderSide orderStatus qty price = false ->
   exists err,
     NewOrder symbol orderType orderSide orderStatus qty price w
     = ((None, Some err), w)).
Proof.
  split; intros V.
  - rewrite (NewOrder_accepts symbol _ _ _ _ _ w V).
    eexists; eexists; split; [reflexivity|]. simpl. split; [reflexivity|].
    apply validationPasses_inv in V as (Hs & _).
    destruct (parseStatus_value orderStatus)
      as [[K E]|[[K E]|[[K E]|[[K E]|[[K E]|(K1 & K2 & K3 & K4 & K5 & E)]]]]];
      rewrite E in *; simpl in *; rewrite ?K;
      try discriminate; split; intros; try reflexivity; discriminate.
  - now apply NewOrder_rejects.
Qed.

(** C2, as amended: [NewOrder] does not look at the symbol.  The error it
    returns, if any, is the same for every symbol, and a constructed order
    carries the symbol it was given; with inputs that pass validation the
    empty symbol yields an order whose Symbol is empty. *)
Theorem NewOrder_symbol_unchecked
  symbol orderType orderSide orderStatus qty price w :
  (forall symbol',
     snd (fst (NewOrder symbol' orderType orderSide orderStatus qty price w))
     = snd (fst (NewOrder symbol orderType orderSide orderStatus qty price w))) /\
  (forall o,
     fst (fst (NewOrder symbol orderType orderSide orderStatus qty price w))
     = Some o -> Symbol o = symbol) /\
  (validationPasses orderType orderSide orderStatus qty price = true ->
   exists o w',
     NewOrder "" orderType orderSide orderStatus qty price w
     = ((Some o, None), w') /\ Symbol o = "").
Proof.
  split; [|split].
  - intros symbol'.
    destruct (validationPasses orderType orderSide orderStatus qty price) eqn:V.
    + now rewrite !(NewOrder_accepts _ _ _ _ _ _ w V).
    + unfold NewOrder.
      destruct (parseStatus orderStatus) as [st [e1|]]; [reflexivity|].
      destruct (parseSide orderSide) as [sd [e2|]]; [reflexivity|].
      destruct (parseType orderType) as [ty [e3|]]; [reflexivity|].
      destruct (validateQuantity qty); [|reflexivity].
      destruct (validatePrice ty price); reflexivity.
  - intros o H. apply NewOrder_returns in H as [_ ->]. reflexivity.
  - intros V. rewrite (NewOrder_accepts "" _ _ _ _ _ w V).
    eexists; eexists; split; reflexivity.
Qed.

(** C3: with qty <= 0 [NewOrder] returns an error and no order, and every
    order [NewOrder] returns has Quantity > 0. *)
Theorem NewOrder_quantity_positive
  symbol orderType orderSide orderStatus qty price w :
  (qty <= 0 ->
   exists err,
     NewOrder symbol orderType orderSide orderStatus qty price w
     = ((None, Some err), w)) /\
  (forall o,
     fst (fst (NewOrder symbol orderType orderSide orderStatus qty price w))
     = Some o -> 0 < Quantity o).
Proof.
  split.
  - intros Hq. apply NewOrder_rejects.
    destruct (validationPasses orderType orderSide orderStatus qty price) eqn:V;
      [|reflexivity].
    apply validationPasses_inv in V. lia.
  - intros o H. apply NewOrder_returns in H as [V ->].
    apply validationPasses_inv in V. simpl. tauto.
Qed.

(** C4: an order type that parses to LIMIT with price <= 0 gives an error
    and no order; an order type that parses to MARKET gives an order for
    every price, zero and negative included, when status and side parse
    and the quantity is positive. *)
Theorem NewOrder_price_rule
  symbol orderType orderSide orderStatus qty price w :
  (parseType orderType = (LIMIT, None) -> price <= 0 ->
   exists err,
     NewOrder symbol orderType orderSide orderStatus qty price w
     = ((None, Some err), w)) /\
  (parseType orderType = (MARKET, None) ->
   snd (parseStatus orderStatus) = None ->
   snd (parseSide orderSide) = None ->
   0 < qty ->
   exists o,
     NewOrder symbol orderType orderSide orderStatus qty price w
     = ((Some o, None), afterNewOrder w) /\ Price o = price).
Proof.
  split.
  - intros Ht Hp. apply NewOrder_rejects.
    destruct (validationPasses orderType orderSide orderStatus qty price) eqn:V;
      [|reflexivity].
    apply validationPasses_inv in V as (_ & _ & _ & _ & Hv).
    rewrite Ht in Hv. unfold validatePrice in Hv. simpl in Hv.
    apply Z.leb_le in Hp. rewrite Hp in Hv. discriminate.
  - intros Ht Hs Hd Hq.
    assert (V : validationPasses orderType orderSide orderStatus qty price = true).
    { unfold validationPasses. rewrite Hs, Hd, Ht. simpl.
      unfold validateQuantity. apply Z.ltb_lt in Hq. now rewrite Hq. }
    rewrite (NewOrder_accepts symbol _ _ _ _ _ w V).
    eexists; split; reflexivity.
Qed.

(** C5: a side string that parses neither to BUY nor to SELL, or a type
    string that parses neither to MARKET nor to LIMIT, makes [NewOrder]
    return an error and no order; the Side of a returned order is BUY or
    SELL and its Type is MARKET or LIMIT. *)
Theorem NewOrder_side_and_type
  symbol orderType orderSide orderStatus qty price w :
  ((parseSide orderSide <> (BUY, None) /\ parseSide orderSide <> (SELL, None)) \/
   (parseType orderType <> (MARKET, None) /\ parseType orderType <> (LIMIT, None)) ->
   exists err,
     NewOrder symbol orderType orderSide orderStatus qty price w
     = ((None, Some err), w)) /\
  (forall o,
     fst (fst (NewOrder symbol orderType orderSide orderStatus qty price w))
     = Some o ->
     (Side o = BUY \/ Side o = SELL) /\ (Type_ o = MARKET \/ Type_ o = LIMIT)).
Proof.
  split.
  - intros H. apply NewOrder_rejects.
    destruct (validationPasses orderType orderSide orderStatus qty price) eqn:V;
      [|reflexivity].
    apply validationPasses_inv in V as (_ & Hd & Ht & _).
    destruct (parseSide_value orderSide) as [[_ E]|[[_ E]|(_ & _ & E)]];
      destruct (parseType_value orderType) as [[_ F]|[[_ F]|(_ & _ & F)]];
      rewrite ?E, ?F in *; simpl in *; try discriminate;
      destruct H as [[H1 H2]|[H1 H2]]; congruence.
  - intros o H. apply NewOrder_returns in H as [V ->].
    apply validationPasses_inv in V as (_ & Hd & Ht & _). simpl.
    destruct (parseSide_value orderSide) as [[_ E]|[[_ E]|(_ & _ & E)]];
      destruct (parseType_value orderType) as [[_ F]|[[_ F]|(_ & _ & F)]];
      rewrite ?E, ?F in *; simpl in *; try discriminate; auto.
Qed.

(** C6: the order [NewOrder] returns has RemainingQuantity equal to
    Quantity, both equal to the requested qty. *)
Theorem NewOrder_remaining_is_quantity
  symbol orderType orderSide orderStatus qty price w o :
  fst (fst (NewOrder symbol orderType orderSide orderStatus qty price w)) = Some o ->
  RemainingQuantity o = Quantity o /\ Quantity o = qty.
Proof.
  intros H. apply NewOrder_returns in H as [_ ->]. simpl. auto.
Qed.

(** C7, as amended: every order [NewOrder] returns has
    0 <= RemainingQuantity <= Quantity, and its RemainingQuantity is not 0
    (so "RemainingQuantity = 0 implies FILLED" holds of it); its Status is
    FILLED exactly when the [orderStatus] argument trims and lower-cases
    to "filled", whatever the quantities. *)
Theorem NewOrder_remaining_bounds
  symbol orderType orderSide orderStatus qty price w o :
  fst (fst (NewOrder symbol orderType orderSide orderStatus qty price w)) = Some o ->
  0 <= RemainingQuantity o <= Quantity o /\
  RemainingQuantity o <> 0 /\
  (RemainingQuantity o = 0 -> Status o = FILLED) /\
  (Status o = FILLED <-> normalize orderStatus = "filled").
Proof.
  intros H. apply NewOrder_returns in H as [V ->].
  apply validationPasses_inv in V as (Hs & _ & _ & Hq & _). simpl.
  repeat split; try lia;
    destruct (parseStatus_value orderStatus)
      as [[K E]|[[K E]|[[K E]|[[K E]|[[K E]|(K1 & K2 & K3 & K4 & K5 & E)]]]]];
    rewrite E in *; simpl in *; rewrite ?K; intros; try reflexivity;
    discriminate.
Qed.

(** C9: [parseStatus] returns CANCELLED exactly for the strings whose
    trimmed lower-case form is "canceled"; "cancelled" is an error, and
    [NewOrder] fails for the status input "cancelled". *)
Theorem parseStatus_canceled_spelling :
  (forall s, parseStatus s = (CANCELLED, None) <-> normalize s = "canceled") /\
  (forall s, fst (parseStatus s) = CANCELLED <-> normalize s = "canceled") /\
  parseStatus "cancelled"
  = (0, Some (errorString "invalid order status: cancelled")) /\
  (forall symbol orderType orderSide qty price w,
     exists err,
       NewOrder symbol orderType orderSide "cancelled" qty price w
       = ((None, Some err), w)).
Proof.
  assert (P : parseStatus "cancelled"
              = (0, Some (errorString "invalid order status: cancelled")))
    by (vm_compute; reflexivity).
  assert (Q : forall s, parseStatus s = (CANCELLED, None) <->
                        normalize s = "canceled").
  { intros s. split.
    - intros H.
      destruct (parseStatus_value s)
        as [[K E]|[[K E]|[[K E]|[[K E]|[[K E]|(K1 & K2 & K3 & K4 & K5 & E)]]]]];
        rewrite E in H; try discriminate; assumption.
    - intros K. unfold parseStatus. rewrite K. reflexivity. }
  split; [exact Q|]. split; [|split; [exact P|]].
  - intros s. rewrite <- Q. split; [|intros ->; reflexivity].
    intros H.
    destruct (parseStatus_value s)
      as [[K E]|[[K E]|[[K E]|[[K E]|[[K E]|(K1 & K2 & K3 & K4 & K5 & E)]]]]];
      rewrite E in *; try discriminate; reflexivity.
  - intros. apply NewOrder_rejects. unfold validationPasses. rewrite P.
    reflexivity.
Qed.

(** C10: [NewOrder] returns either an order with a nil error or no order
    with an error, never both and never neither.  A failed check (a
    status, side or type that does not parse, a quantity that is not
    positive, a limit price that is not positive) always gives the
    second: no order, an error, and a world from which nothing was drawn;
    the order is returned exactly when all checks pass. *)
Theorem NewOrder_order_xor_error
  symbol orderType orderSide orderStatus qty price w :
  let result := NewOrder symbol orderType orderSide orderStatus qty price w in
  ((exists o, result = ((Some o, None), afterNewOrder w)) \/
   (exists err, result = ((None, Some err), w))) /\
  ~ ((exists o, fst (fst result) = Some o) /\
     (exists err, snd (fst result) = Some err)) /\
  ~ (fst (fst result) = None /\ snd (fst result) = None) /\
  (snd (parseStatus orderStatus) <> None \/
   snd (parseSide orderSide) <> None \/
   snd (parseType orderType) <> None \/
   qty <= 0 \/
   (parseType orderType = (LIMIT, None) /\ price <= 0) ->
   exists err, result = ((None, Some err), w)) /\
  (validationPasses orderType orderSide orderStatus qty price = false ->
   exists err, result = ((None, Some err), w)) /\
  (validationPasses orderType orderSide orderStatus qty price = true ->
   result
   = ((Some (builtOrder symbol orderType orderSide orderStatus qty price w),
       None), afterNewOrder w)) /\
  ((exists o, fst (fst result) = Some o) <->
   validationPasses orderType orderSide orderStatus qty price = true).
Proof.
  intros result. subst result.
  assert (F : snd (parseStatus orderStatus) <> None \/
              snd (parseSide orderSide) <> None \/
              snd (parseType orderType) <> None \/
              qty <= 0 \/
              (parseType orderType = (LIMIT, None) /\ price <= 0) ->
              validationPasses orderType orderSide orderStatus qty price = false).
  { intros H.
    destruct (validationPasses orderType orderSide orderStatus qty price) eqn:V;
      [|reflexivity].
    apply validationPasses_inv in V as (Hs & Hd & Ht & Hq & Hp).
    destruct H as [H|[H|[H|[H|[H1 H2]]]]]; try congruence; try lia.
    rewrite H1 in Hp. unfold validatePrice in Hp. cbn in Hp.
    destruct (Z.leb_spec price 0); [discriminate|lia]. }
  destruct (validationPasses orderType orderSide orderStatus qty price) eqn:V.
  - rewrite (NewOrder_accepts symbol _ _ _ _ _ w V). simpl.
    split; [|split; [|split; [|split; [|split; [|split]]]]].
    + left. eauto.
    + intros [_ [err E]]. discriminate.
    + intros [E _]. discriminate.
    + intros H. apply F in H. discriminate.
    + discriminate.
    + reflexivity.
    + split; [reflexivity|eauto].
  - destruct (NewOrder_rejects symbol _ _ _ _ _ w V) as [err E]. rewrite E.
    simpl. split; [|split; [|split; [|split; [|split; [|split]]]]].
    + right. eauto.
    + intros [[o G] _]. discriminate.
    + intros [_ G]. discriminate.
    + eauto.
    + eauto.
    + discriminate.
    + split; [intros [o G]; discriminate|discriminate].
Qed.


Lemma chunks_EncodeRune rs :
  Forall ValidRune rs ->
  chunks (flat_map utf8_EncodeRune rs) = map (fun r => (r, utf8_EncodeRune r)) rs.
Proof.
  induction 1 as [|r rs Hr _ IH]; [reflexivity|].
  cbn [flat_map map].
  rewrite chunks_step.
  - rewrite utf8_DecodeRune_EncodeRune by assumption. cbn [fst snd].
    now rewrite firstn_exact, skipn_exact, IH.
  - pose proof (utf8_EncodeRune_nonempty r). destruct (utf8_EncodeRune r); [congruence|discriminate].
Qed.

(** ** Trimming *)

Lemma dropSpaces_suffix cs : exists a, cs = (a ++ dropSpaces cs)%list.
Proof.
  induction cs as [|c cs [a IH]]; [now exists []|].
  cbn [dropSpaces]. destruct (unicode_IsSpace (fst c)).
  - exists (c :: a). cbn [app]. now rewrite <- IH.
  - now exists [].
Qed.

Lemma dropSpaces_noLeadingSpace cs : noLeadingSpace (dropSpaces cs).
Proof.
  induction cs as [|c cs IH]; [exact I|].
  cbn [dropSpaces]. destruct (unicode_IsSpace (fst c)) eqn:E; [exact IH|exact E].
Qed.

Lemma dropSpaces_fix cs : noLeadingSpace cs -> dropSpaces cs = cs.
Proof.
  destruct cs as [|c cs]; [reflexivity|]. cbn [noLeadingSpace dropSpaces].
  now intros ->.
Qed.

Lemma dropSpaces_snoc cs c :
  unicode_IsSpace (fst c) = false ->
  dropSpaces (cs ++ [c]) = (dropSpaces cs ++ [c])%list.
Proof.
  intros E. induction cs as [|x cs IH]; cbn [app dropSpaces].
  - now rewrite E.
  - destruct (unicode_IsSpace (fst x)); [exact IH|reflexivity].
Qed.

Lemma trimSpaces_infix cs : exists a b, cs = (a ++ trimSpaces cs ++ b)%list.
Proof.
  unfold trimSpaces.
  destruct (dropSpaces_suffix cs) as [a Ha].
  destruct (dropSpaces_suffix (rev (dropSpaces cs))) as [b Hb].
  exists a, (rev b).
  rewrite <- rev_app_distr, <- Hb, rev_involutive. exact Ha.
Qed.

Lemma trimSpaces_Trimmed cs : Trimmed (trimSpaces cs).
Proof.
  unfold Trimmed, trimSpaces. split.
  - pose proof (dropSpaces_noLeadingSpace cs) as H.
    destruct (dropSpaces cs) as [|c x]; [exact I|].
    cbn [noLeadingSpace] in H. cbn [rev].
    rewrite dropSpaces_snoc by assumption.
    rewrite rev_app_distr. exact H.
  - rewrite rev_involutive. apply dropSpaces_noLeadingSpace.
Qed.

Lemma trimSpaces_fix cs : Trimmed cs -> trimSpaces cs = cs.
Proof.
  intros [H1 H2]. unfold trimSpaces.
  rewrite (dropSpaces_fix cs H1), (dropSpaces_fix _ H2).
  apply rev_involutive.
Qed.

Lemma chunks_TrimSpaceBytes p :
  chunks (TrimSpaceBytes p) = trimSpaces (chunks p).
Proof.
  destruct (trimSpaces_infix (chunks p)) as (a & b & H).
  unfold TrimSpaceBytes. eapply chunks_infix. exact H.
Qed.

Lemma TrimSpaceBytes_range p :
  Forall is_byte p -> Forall is_byte (TrimSpaceBytes p).
Proof.
  intros Hp.
  destruct (trimSpaces_infix (chunks p)) as (a & b & H).
  rewrite <- (chunks_concat p), H in Hp.
  rewrite !map_app, !concat_app in Hp.
  apply Forall_app in Hp as [_ Hp]. apply Forall_app in Hp as [Hp _].
  exact Hp.
Qed.

Lemma MapBytes_range f p : Forall is_byte (MapBytes f p).
Proof.
  unfold MapBytes. induction (runes p) as [|r rs IH]; [constructor|].
  cbn [flat_map]. apply Forall_app. split; [|exact IH].
  destruct (f r <? 0); [constructor|apply utf8_EncodeRune_range].
Qed.

(** Every string the parsers switch on is the lower-cased form of a
    string without white space at either end. *)
Lemma normalize_bytes s :
  normalize s = of_bytes (ToLowerBytes (TrimSpaceBytes (bytes s))).
Proof.
  unfold normalize, strings_ToLower, strings_TrimSpace.
  rewrite bytes_of_bytes; [reflexivity|].
  apply TrimSpaceBytes_range, bytes_range.
Qed.

Section CaseTable.

(** What the case tables of every Unicode version satisfy: the lower case
    of a code point is a code point, lower-casing twice changes nothing
    more, and white space has no case. *)
Hypothesis lower_valid : forall r, ValidRune r -> ValidRune (unicode_ToLower r).
Hypothesis lower_idem :
  forall r, ValidRune r -> unicode_ToLower (unicode_ToLower r) = unicode_ToLower r.
Hypothesis lower_space :
  forall r, ValidRune r -> unicode_IsSpace (unicode_ToLower r) = unicode_IsSpace r.

Lemma ToLowerBytes_runes p :
  Forall is_byte p ->
  ToLowerBytes p = flat_map utf8_EncodeRune (map unicode_ToLower (runes p)).
Proof.
  intros Hp. apply chunks_valid in Hp.
  unfold ToLowerBytes, MapBytes.
  induction Hp as [|r rs Hr _ IH]; [reflexivity|].
  cbn [flat_map map]. rewrite IH. f_equal.
  destruct (lower_valid r Hr) as [[H0 _] _].
  destruct (Z.ltb_spec (unicode_ToLower r) 0); [lia|reflexivity].
Qed.

Lemma lowered_noLeadingSpace cs :
  Forall ValidRune (map fst cs) ->
  noLeadingSpace cs ->
  noLeadingSpace
    (map (fun r => (r, utf8_EncodeRune r)) (map unicode_ToLower (map fst cs))).
Proof.
  destruct cs as [|c cs]; [intros; exact I|].
  cbn [map noLeadingSpace fst]. intros Hv E.
  inversion Hv; subst. now rewrite lower_space.
Qed.

Lemma lowered_Trimmed cs :
  Forall ValidRune (map fst cs) ->
  Trimmed cs ->
  Trimmed (map (fun r => (r, utf8_EncodeRune r)) (map unicode_ToLower (map fst cs))).
Proof.
  intros Hv [H1 H2]. split.
  - now apply lowered_noLeadingSpace.
  - rewrite <- !map_rev. apply lowered_noLeadingSpace; [|exact H2].
    rewrite map_rev. now apply Forall_rev.
Qed.

(** Trimming and lower-casing a second time changes nothing. *)
Lemma normalize_bytes_idempotent p :
  Forall is_byte p ->
  ToLowerBytes (TrimSpaceBytes (ToLowerBytes (TrimSpaceBytes p)))
  = ToLowerBytes (TrimSpaceBytes p).
Proof.
  intros Hp.
  pose proof (TrimSpaceBytes_range p Hp) as Hu.
  pose proof (chunks_valid _ Hu) as Hv.
  rewrite (ToLowerBytes_runes _ Hu).
  unfold runes in *. rewrite chunks_TrimSpaceBytes in *.
  set (cs := trimSpaces (chunks p)) in *.
  set (rs' := map unicode_ToLower (map fst cs)).
  assert (Hv' : Forall ValidRune rs').
  { subst rs'. apply Forall_map. eapply Forall_impl; [|exact Hv]. auto. }
  assert (Hc : chunks (flat_map utf8_EncodeRune rs')
               = map (fun r => (r, utf8_EncodeRune r)) rs')
    by now apply chunks_EncodeRune.
  assert (Ht : TrimSpaceBytes (flat_map utf8_EncodeRune rs') = flat_map utf8_EncodeRune rs').
  { unfold TrimSpaceBytes. rewrite Hc, trimSpaces_fix.
    - rewrite <- Hc. apply chunks_concat.
    - subst rs'. apply lowered_Trimmed; [exact Hv|].
      subst cs. apply trimSpaces_Trimmed. }
  rewrite Ht.
  rewrite ToLowerBytes_runes.
  - unfold runes. rewrite Hc.
    replace (map fst (map (fun r => (r, utf8_EncodeRune r)) rs')) with rs'
      by (clear; induction rs' as [|r rs IH]; cbn [map fst]; congruence).
    f_equal. subst rs'. rewrite map_map.
    apply map_ext_in. intros r Hr. apply lower_idem.
    rewrite Forall_forall in Hv. auto.
  - clear. induction rs' as [|r rs IH]; [constructor|].
    cbn [flat_map]. apply Forall_app. split; [apply utf8_EncodeRune_range|exact IH].
Qed.

Lemma normalize_idempotent s : normalize (normalize s) = normalize s.
Proof.
  rewrite (normalize_bytes (normalize s)), (normalize_bytes s).
  rewrite bytes_of_bytes by apply MapBytes_range.
  now rewrite normalize_bytes_idempotent by apply bytes_range.
Qed.

(** C8, as amended: for every string s, each of [parseStatus], [parseSide]
    and [parseType] returns for s what it returns for the trimmed
    lower-case form of s when the parse succeeds, and fails for both when
    it fails for one; the error of a failed parse quotes the argument of
    that call, so the two errors differ where s differs from its trimmed
    lower-case form.  [NewOrder] returns the same for the sides "  BUY "
    and "buy". *)
Theorem parsers_agree_on_normal_form s :
  normalize (normalize s) = normalize s /\
  agree "invalid order status: " parseStatus s (normalize s) /\
  agree "invalid order side: " parseSide s (normalize s) /\
  agree "invalid order type: " parseType s (normalize s) /\
  (forall symbol orderType orderStatus qty price w,
     NewOrder symbol orderType "  BUY " orderStatus qty price w
     = NewOrder symbol orderType "buy" orderStatus qty price w).
Proof.
  pose proof (normalize_idempotent s) as N.
  split; [exact N|]. unfold agree.
  split; [|split; [|split]].
  - unfold parseStatus. rewrite N. generalize (normalize s) as k. intros k.
    by_keyword k; cbn [fst snd]; auto.
  - unfold parseSide. rewrite N. generalize (normalize s) as k. intros k.
    by_keyword k; cbn [fst snd]; auto.
  - unfold parseType. rewrite N. generalize (normalize s) as k. intros k.
    by_keyword k; cbn [fst snd]; auto.
  - intros. unfold NewOrder.
    replace (parseSide "  BUY ") with (BUY, @None error) by (vm_compute; reflexivity).
    replace (parseSide "buy") with (BUY, @None error) by (vm_compute; reflexivity).
    reflexivity.
Qed.

End CaseTable.

(** * Further properties of the code *)

(** ** Which inputs are accepted, and which error is returned *)

Lemma parse_ok_iff :
  (forall s, snd (parseStatus s) = None <->
     normalize s = "pending" \/ normalize s = "partially_filled" \/
     normalize s = "filled" \/ normalize s = "canceled" \/
     normalize s = "rejected") /\
  (forall s, snd (parseSide s) = None <->
     normalize s = "buy" \/ normalize s = "sell") /\
  (forall s, snd (parseType s) = None <->
     normalize s = "market" \/ normalize s = "limit").
Proof.
  split; [|split]; intros s.
  - destruct (parseStatus_value s)
      as [[K E]|[[K E]|[[K E]|[[K E]|[[K E]|(K1 & K2 & K3 & K4 & K5 & E)]]]]];
      rewrite E; cbn [snd]; split; intros H; try reflexivity; try discriminate;
      tauto.
  - destruct (parseSide_value s) as [[K E]|[[K E]|(K1 & K2 & E)]];
      rewrite E; cbn [snd]; split; intros H; try reflexivity; try discriminate;
      tauto.
  - destruct (parseType_value s) as [[K E]|[[K E]|(K1 & K2 & E)]];
      rewrite E; cbn [snd]; split; intros H; try reflexivity; try discriminate;
      tauto.
Qed.

(** X1: [NewOrder] returns an order exactly when the status, the side and
    the type trim and lower-case to one of their keywords, the quantity is
    positive and, for a limit order, the price is positive. *)
Theorem NewOrder_acceptance
  symbol orderType orderSide orderStatus qty price w :
  (exists o,
     fst (NewOrder symbol orderType orderSide orderStatus qty price w)
     = (Some o, None)) <->
  (normalize orderStatus = "pending" \/
   normalize orderStatus = "partially_filled" \/
   normalize orderStatus = "filled" \/ normalize orderStatus = "canceled" \/
   normalize orderStatus = "rejected") /\
  (normalize orderSide = "buy" \/ normalize orderSide = "sell") /\
  (normalize orderType = "market" \/
   (normalize orderType = "limit" /\ 0 < price)) /\
  0 < qty.
Proof.
  destruct parse_ok_iff as (PS & PD & PT).
  rewrite <- PS, <- PD. split.
  - intros [o H].
    assert (R : fst (fst (NewOrder symbol orderType orderSide orderStatus
                            qty price w)) = Some o) by now rewrite H.
    apply NewOrder_returns in R as [V _].
    apply validationPasses_inv in V as (Hs & Hd & Ht & Hq & Hp).
    repeat split; try assumption.
    destruct (parseType_value orderType) as [[K E]|[[K E]|(K1 & K2 & E)]];
      rewrite E in *; cbn [fst snd] in *; try discriminate; [now left|].
    right. split; [exact K|].
    unfold validatePrice in Hp. cbn in Hp.
    destruct (Z.leb_spec price 0); [discriminate|assumption].
  - intros (Hs & Hd & Ht & Hq).
    assert (V : validationPasses orderType orderSide orderStatus qty price = true).
    { unfold validationPasses, validateQuantity. rewrite Hs, Hd.
      apply Z.ltb_lt in Hq. rewrite Hq.
      destruct Ht as [K|[K Hp]]; unfold parseType; rewrite K; cbn;
        [reflexivity|].
      unfold validatePrice, LIMIT. cbn [Z.eqb Pos.eqb andb].
      destruct (Z.leb_spec price 0); [lia|reflexivity]. }
    rewrite (NewOrder_accepts symbol _ _ _ _ _ w V). cbn [fst].
    eexists. reflexivity.
Qed.

Lemma parse_failure :
  (forall s, snd (parseStatus s) <> None ->
     parseStatus s = (0, Some (errorString ("invalid order status: " ++ s)))) /\
  (forall s, snd (parseSide s) <> None ->
     parseSide s = (0, Some (errorString ("invalid order side: " ++ s)))) /\
  (forall s, snd (parseType s) <> None ->
     parseType s = (0, Some (errorString ("invalid order type: " ++ s)))).
Proof.
  split; [|split]; intros s H.
  - destruct (parseStatus_value s)
      as [[K E]|[[K E]|[[K E]|[[K E]|[[K E]|(K1 & K2 & K3 & K4 & K5 & E)]]]]];
      rewrite E in *; cbn [snd] in H; try congruence; reflexivity.
  - destruct (parseSide_value s) as [[K E]|[[K E]|(K1 & K2 & E)]];
      rewrite E in *; cbn [snd] in H; try congruence; reflexivity.
  - destruct (parseType_value s) as [[K E]|[[K E]|(K1 & K2 & E)]];
      rewrite E in *; cbn [snd] in H; try congruence; reflexivity.
Qed.

(** X2: the checks run in the order status, side, type, quantity, price,
    and the error returned is that of the first check that fails, quoting
    the offending argument as it was passed; the world is left as it was. *)
Theorem NewOrder_reports_first_failure
  symbol orderType orderSide orderStatus qty price w :
  let refused cause :=
    ((None, Some (wrapError ("failed to create order: " ++ Error cause) cause)), w) in
  (snd (parseStatus orderStatus) <> None ->
   NewOrder symbol orderType orderSide orderStatus qty price w
   = refused (errorString ("invalid order status: " ++ orderStatus))) /\
  (snd (parseStatus orderStatus) = None ->
   snd (parseSide orderSide) <> None ->
   NewOrder symbol orderType orderSide orderStatus qty price w
   = refused (errorString ("invalid order side: " ++ orderSide))) /\
  (snd (parseStatus orderStatus) = None ->
   snd (parseSide orderSide) = None ->
   snd (parseType orderType) <> None ->
   NewOrder symbol orderType orderSide orderStatus qty price w
   = refused (errorString ("invalid order type: " ++ orderType))) /\
  (snd (parseStatus orderStatus) = None ->
   snd (parseSide orderSide) = None ->
   snd (parseType orderType) = None ->
   qty <= 0 ->
   NewOrder symbol orderType orderSide orderStatus qty price w
   = refused (errorString "qunatity must be greater than 0")) /\
  (snd (parseStatus orderStatus) = None ->
   snd (parseSide orderSide) = None ->
   parseType orderType = (LIMIT, None) ->
   0 < qty -> price <= 0 ->
   NewOrder symbol orderType orderSide orderStatus qty price w
   = refused (errorString "price must be greater than 0")).
Proof.
  destruct parse_failure as (FS & FD & FT).
  intros refused. subst refused. unfold NewOrder.
  repeat split.
  - intros Hs. rewrite (FS _ Hs). reflexivity.
  - intros Hs Hd.
    destruct (parseStatus orderStatus) as [vs [e|]]; [discriminate|].
    rewrite (FD _ Hd). reflexivity.
  - intros Hs Hd Ht.
    destruct (parseStatus orderStatus) as [vs [e|]]; [discriminate|].
    destruct (parseSide orderSide) as [vd [e|]]; [discriminate|].
    rewrite (FT _ Ht). reflexivity.
  - intros Hs Hd Ht Hq.
    destruct (parseStatus orderStatus) as [vs [e|]]; [discriminate|].
    destruct (parseSide orderSide) as [vd [e|]]; [discriminate|].
    destruct (parseType orderType) as [vt [e|]]; [discriminate|].
    unfold validateQuantity. destruct (Z.ltb_spec 0 qty); [lia|reflexivity].
  - intros Hs Hd Ht Hq Hp.
    destruct (parseStatus orderStatus) as [vs [e|]]; [discriminate|].
    destruct (parseSide orderSide) as [vd [e|]]; [discriminate|].
    rewrite Ht. unfold validateQuantity, validatePrice.
    destruct (Z.ltb_spec 0 qty); [|lia]. cbn.
    destruct (Z.leb_spec price 0); [reflexivity|lia].
Qed.

(** X3: every error [NewOrder] returns is a wrapper: its message is
    "failed to create order: " followed by the message of the error it
    wraps, and the wrapped error wraps nothing further. *)
Theorem NewOrder_error_chain
  symbol orderType orderSide orderStatus qty price w err :
  snd (fst (NewOrder symbol orderType orderSide orderStatus qty price w))
  = Some err ->
  exists cause,
    Unwrap err = Some cause /\
    Unwrap cause = None /\
    Error err = ("failed to create order: " ++ Error cause)%string.
Proof.
  destruct parse_failure as (FS & FD & FT).
  unfold NewOrder.
  destruct (parseStatus orderStatus) as [vs [e1|]] eqn:Es.
  { pose proof (FS orderStatus) as F. rewrite Es in F. cbn [snd] in F.
    specialize (F ltac:(discriminate)). inversion F; subst.
    cbn. intros H; inversion H; subst. eexists; repeat split. }
  destruct (parseSide orderSide) as [vd [e2|]] eqn:Ed.
  { pose proof (FD orderSide) as F. rewrite Ed in F. cbn [snd] in F.
    specialize (F ltac:(discriminate)). inversion F; subst.
    cbn. intros H; inversion H; subst. eexists; repeat split. }
  destruct (parseType orderType) as [vt [e3|]] eqn:Et.
  { pose proof (FT orderType) as F. rewrite Et in F. cbn [snd] in F.
    specialize (F ltac:(discriminate)). inversion F; subst.
    cbn. intros H; inversion H; subst. eexists; repeat split. }
  destruct (validateQuantity qty); cbn [negb].
  - destruct (validatePrice vt price); cbn [negb].
    + cbn. discriminate.
    + cbn. intros H; inversion H; subst. eexists; repeat split.
  - cbn. intros H; inversion H; subst. eexists; repeat split.
Qed.

(** X4: next to an error the parsers return the zero value, which is also
    the value of PENDING, BUY and MARKET; when they succeed, two strings
    get the same value exactly when they have the same trimmed lower-case
    form, so no two keywords share a value. *)
Theorem parsers_distinguish_keywords :
  (forall s, snd (parseStatus s) <> None -> fst (parseStatus s) = PENDING) /\
  (forall s, snd (parseSide s) <> None -> fst (parseSide s) = BUY) /\
  (forall s, snd (parseType s) <> None -> fst (parseType s) = MARKET) /\
  (forall s s',
     snd (parseStatus s) = None -> snd (parseStatus s') = None ->
     (fst (parseStatus s) = fst (parseStatus s') <-> normalize s = normalize s')) /\
  (forall s s',
     snd (parseSide s) = None -> snd (parseSide s') = None ->
     (fst (parseSide s) = fst (parseSide s') <-> normalize s = normalize s')) /\
  (forall s s',
     snd (parseType s) = None -> snd (parseType s') = None ->
     (fst (parseType s) = fst (parseType s') <-> normalize s = normalize s')).
Proof.
  destruct parse_failure as (FS & FD & FT).
  split; [|split; [|split; [|split; [|split]]]].
  - intros s H. now rewrite (FS s H).
  - intros s H. now rewrite (FD s H).
  - intros s H. now rewrite (FT s H).
  - intros s s' H H'.
    destruct (parseStatus_value s)
      as [[K E]|[[K E]|[[K E]|[[K E]|[[K E]|(K1 & K2 & K3 & K4 & K5 & E)]]]]];
      rewrite E in *; cbn [fst snd] in *; try discriminate;
      destruct (parseStatus_value s')
        as [[K' E']|[[K' E']|[[K' E']|[[K' E']|[[K' E']|(_ & _ & _ & _ & _ & E')]]]]];
      rewrite E' in *; cbn [fst snd] in *; try discriminate;
      rewrite K, K'; split; intros; try reflexivity; discriminate.
  - intros s s' H H'.
    destruct (parseSide_value s) as [[K E]|[[K E]|(K1 & K2 & E)]];
      rewrite E in *; cbn [fst snd] in *; try discriminate;
      destruct (parseSide_value s') as [[K' E']|[[K' E']|(_ & _ & E')]];
      rewrite E' in *; cbn [fst snd] in *; try discriminate;
      rewrite K, K'; split; intros; try reflexivity; discriminate.
  - intros s s' H H'.
    destruct (parseType_value s) as [[K E]|[[K E]|(K1 & K2 & E)]];
      rewrite E in *; cbn [fst snd] in *; try discriminate;
      destruct (parseType_value s') as [[K' E']|[[K' E']|(_ & _ & E')]];
      rewrite E' in *; cbn [fst snd] in *; try discriminate;
      rewrite K, K'; split; intros; try reflexivity; discriminate.
Qed.

(** ** The world: identifiers and timestamps *)

(** X5: two orders constructed one after the other.  Each call draws
    one identifier and reads the clock twice, the creation time first;
    the second call continues where the first stopped.  When the source
    of identifiers never repeats, the two orders have different
    identifiers (whatever the clock does); when the clock does not run
    backwards, each order is created no later than it is updated and the
    first is updated no later than the second is created (whatever the
    identifiers are). *)
Theorem NewOrder_successive_orders
  symbol orderType orderSide orderStatus qty price
  symbol' orderType' orderSide' orderStatus' qty' price' w o wa o' wb :
  NewOrder symbol orderType orderSide orderStatus qty price w
  = ((Some o, None), wa) ->
  NewOrder symbol' orderType' orderSide' orderStatus' qty' price' wa
  = ((Some o', None), wb) ->
  (drawn wa = S (drawn w) /\ ticks wa = S (S (ticks w)) /\
   drawn wb = (drawn w + 2)%nat /\ ticks wb = (ticks w + 4)%nat /\
   entropy wb = entropy w /\ wall wb = wall w) /\
  (OrderID o = entropy w (drawn w) /\
   OrderID o' = entropy w (S (drawn w)) /\
   CreateAt o = wall w (ticks w) /\
   UpdatedAt o = wall w (S (ticks w)) /\
   CreateAt o' = wall w (S (S (ticks w))) /\
   UpdatedAt o' = wall w (S (S (S (ticks w))))) /\
  ((forall n m, entropy w n = entropy w m -> n = m) ->
   OrderID o <> OrderID o') /\
  ((forall n m, (n <= m)%nat -> wall w n <= wall w m) ->
   CreateAt o <= UpdatedAt o /\ UpdatedAt o <= CreateAt o' /\
   CreateAt o' <= UpdatedAt o').
Proof.
  intros H H'.
  assert (R : fst (fst (NewOrder symbol orderType orderSide orderStatus
                          qty price w)) = Some o) by now rewrite H.
  apply NewOrder_returns in R as [V ->].
  rewrite (NewOrder_accepts symbol _ _ _ _ _ w V) in H.
  inversion H as [[Hwa]]. clear H.
  assert (R : fst (fst (NewOrder symbol' orderType' orderSide' orderStatus'
                          qty' price' wa)) = Some o') by now rewrite H'.
  apply NewOrder_returns in R as [V' ->].
  rewrite (NewOrder_accepts symbol' _ _ _ _ _ wa V') in H'.
  inversion H' as [[Hwb]]. clear H'.
  subst wa. unfold builtOrder, afterNewOrder. cbn.
  split; [|split; [|split]].
  - repeat split; lia.
  - repeat split.
  - intros Hinj E. apply Hinj in E. lia.
  - intros Hmono. repeat split; apply Hmono; lia.
Qed.

(** ** The program *)

(** X6: whatever the world and the case tables, [main] writes the line
    "failed to create order: price must be greater than 0" and returns;
    it never prints an order, draws no identifier and does not read the
    clock. *)
Theorem main_prints_the_price_error printOrder w :
  main printOrder w
  = (("failed to create order: price must be greater than 0" ++ newline)%string,
     w).
Proof.
  unfold main.
  replace (NewOrder "AAPL" "LIMIT" "BUY" "pending" 10 0 w)
    with ((@None Order,
           Some (wrapError "failed to create order: price must be greater than 0"
                           (errorString "price must be greater than 0"))), w).
  - reflexivity.
  - unfold NewOrder.
    replace (parseStatus "pending") with (PENDING, @None error)
      by (vm_compute; reflexivity).
    replace (parseSide "BUY") with (BUY, @None error)
      by (vm_compute; reflexivity).
    replace (parseType "LIMIT") with (LIMIT, @None error)
      by (vm_compute; reflexivity).
    reflexivity.
Qed.

(** ** Only the trimmed lower-case form counts *)

Lemma parse_by_normal_form s s' :
  normalize s' = normalize s ->
  (fst (parseStatus s') = fst (parseStatus s) /\
   (snd (parseStatus s') = None <-> snd (parseStatus s) = None)) /\
  (fst (parseSide s') = fst (parseSide s) /\
   (snd (parseSide s') = None <-> snd (parseSide s) = None)) /\
  (fst (parseType s') = fst (parseType s) /\
   (snd (parseType s') = None <-> snd (parseType s) = None)).
Proof.
  intros N. unfold parseStatus, parseSide, parseType. rewrite N.
  generalize (normalize s) as k. intros k.
  repeat split; by_keyword k; cbn [fst snd]; try reflexivity;
    intros; try reflexivity; discriminate.
Qed.

Lemma checks_by_normal_form
  orderType orderSide orderStatus orderType' orderSide' orderStatus'
  qty price :
  normalize orderType' = normalize orderType ->
  normalize orderSide' = normalize orderSide ->
  normalize orderStatus' = normalize orderStatus ->
  validationPasses orderType' orderSide' orderStatus' qty price
  = validationPasses orderType orderSide orderStatus qty price /\
  fst (parseStatus orderStatus') = fst (parseStatus orderStatus) /\
  fst (parseSide orderSide') = fst (parseSide orderSide) /\
  fst (parseType orderType') = fst (parseType orderType).
Proof.
  intros Nt Nd Ns.
  destruct (parse_by_normal_form _ _ Ns) as ((Vs & Es) & _).
  destruct (parse_by_normal_form _ _ Nd) as (_ & (Vd & Ed) & _).
  destruct (parse_by_normal_form _ _ Nt) as (_ & _ & (Vt & Et)).
  split; [|auto].
  unfold validationPasses. rewrite Vt.
  destruct (snd (parseStatus orderStatus')) as [e|],
           (snd (parseStatus orderStatus)) as [e'|];
    try (destruct Es as [A B]; first [specialize (A eq_refl)|specialize (B eq_refl)];
         discriminate); [reflexivity|].
  destruct (snd (parseSide orderSide')) as [e|],
           (snd (parseSide orderSide)) as [e'|];
    try (destruct Ed as [A B]; first [specialize (A eq_refl)|specialize (B eq_refl)];
         discriminate); [reflexivity|].
  destruct (snd (parseType orderType')) as [e|],
           (snd (parseType orderType)) as [e'|];
    try (destruct Et as [A B]; first [specialize (A eq_refl)|specialize (B eq_refl)];
         discriminate); reflexivity.
Qed.

Lemma NewOrder_same_normal_forms
  symbol orderType orderSide orderStatus orderType' orderSide' orderStatus'
  qty price w :
  normalize orderType' = normalize orderType ->
  normalize orderSide' = normalize orderSide ->
  normalize orderStatus' = normalize orderStatus ->
  fst (fst (NewOrder symbol orderType' orderSide' orderStatus' qty price w))
  = fst (fst (NewOrder symbol orderType orderSide orderStatus qty price w)).
Proof.
  intros Nt Nd Ns.
  destruct (checks_by_normal_form _ _ _ _ _ _ qty price Nt Nd Ns)
    as (V & Vs & Vd & Vt).
  destruct (validationPasses orderType orderSide orderStatus qty price) eqn:W.
  - rewrite (NewOrder_accepts symbol _ _ _ _ _ w V),
            (NewOrder_accepts symbol _ _ _ _ _ w W).
    unfold builtOrder. now rewrite Vs, Vd, Vt.
  - destruct (NewOrder_rejects symbol _ _ _ _ _ w V) as [e E].
    destruct (NewOrder_rejects symbol _ _ _ _ _ w W) as [e' E'].
    now rewrite E, E'.
Qed.

(** X7: [NewOrder] depends on its status, side and type arguments only
    through their trimmed lower-case forms: two calls whose arguments
    agree in these forms return the same order (or both none), leave the
    same world, and fail together. *)
Theorem NewOrder_by_normal_forms
  symbol orderType orderSide orderStatus orderType' orderSide' orderStatus'
  qty price w :
  normalize orderType' = normalize orderType ->
  normalize orderSide' = normalize orderSide ->
  normalize orderStatus' = normalize orderStatus ->
  fst (fst (NewOrder symbol orderType' orderSide' orderStatus' qty price w))
  = fst (fst (NewOrder symbol orderType orderSide orderStatus qty price w)) /\
  snd (NewOrder symbol orderType' orderSide' orderStatus' qty price w)
  = snd (NewOrder symbol orderType orderSide orderStatus qty price w) /\
  (snd (fst (NewOrder symbol orderType' orderSide' orderStatus' qty price w))
   = None <->
   snd (fst (NewOrder symbol orderType orderSide orderStatus qty price w))
   = None).
Proof.
  intros Nt Nd Ns.
  destruct (checks_by_normal_form _ _ _ _ _ _ qty price Nt Nd Ns)
    as (V & Vs & Vd & Vt).
  destruct (validationPasses orderType orderSide orderStatus qty price) eqn:W.
  - rewrite (NewOrder_accepts symbol _ _ _ _ _ w V),
            (NewOrder_accepts symbol _ _ _ _ _ w W).
    unfold builtOrder. rewrite Vs, Vd, Vt. cbn. repeat split; reflexivity.
  - destruct (NewOrder_rejects symbol _ _ _ _ _ w V) as [e E].
    destruct (NewOrder_rejects symbol _ _ _ _ _ w W) as [e' E'].
    rewrite E, E'. cbn. repeat split; intros; discriminate.
Qed.

(** ** White space around an argument *)

Lemma first_accepts_continuation s0 sz lo hi b :
  first s0 = Some (sz, lo, hi) -> cont b = false ->
  (b <? lo) || (hi <? b) = true.
Proof.
  intros F C. apply first_cases in F. unfold cont in C.
  destruct (Z.ltb_spec b lo); [reflexivity|].
  destruct (Z.ltb_spec hi b); [reflexivity|].
  destruct (Z.leb_spec 0x80 b); destruct (Z.leb_spec b 0xBF);
    cbn in C; try discriminate; lia.
Qed.

(** A byte that cannot continue a rune ends whatever came before it. *)
Lemma utf8_DecodeRune_extend s0 t b q r :
  utf8_DecodeRune (s0 :: t) = (r, 1%nat) -> cont b = false ->
  utf8_DecodeRune (s0 :: t ++ b :: q) = (r, 1%nat).
Proof.
  intros H C.
  destruct t as [|s1 [|s2 [|s3 t]]]; cbn [app];
    unfold utf8_DecodeRune in H |- *;
    (destruct (s0 <? RuneSelf); [exact H|]);
    (destruct (first s0) as [[[sz lo] hi]|] eqn:F; [|exact H]);
    pose proof (first_accepts_continuation _ _ _ _ _ F C) as A;
    split_match_in H; inversion H; subst; replay;
    rewrite ?A, ?C; cbn [negb]; try reflexivity; try discriminate.
Qed.

Lemma chunks_app_boundary b q : forall p,
  cont b = false ->
  chunks (p ++ b :: q) = (chunks p ++ chunks (b :: q))%list.
Proof.
  intros p C.
  induction p as [|p Hne IH] using range_ind; [reflexivity|].
  pose proof (utf8_DecodeRune_width p Hne) as [[W1 W2] _].
  destruct (utf8_DecodeRune p) as [r w] eqn:D. cbn [fst snd] in *.
  assert (D' : utf8_DecodeRune (p ++ b :: q) = (r, w)).
  { destruct (Nat.eq_dec w 1) as [->|Hw].
    - destruct p as [|s0 t]; [congruence|]. cbn [app].
      now apply utf8_DecodeRune_extend.
    - rewrite <- (firstn_skipn w p) at 1. rewrite <- app_assoc.
      apply utf8_DecodeRune_wide; [exact D|lia]. }
  rewrite (chunks_step (p ++ b :: q)) by (destruct p; [congruence|discriminate]).
  rewrite (chunks_step p Hne), D, D'. cbn [fst snd app].
  rewrite firstn_app, skipn_app.
  replace (w - length p)%nat with 0%nat by lia.
  cbn [firstn skipn]. rewrite app_nil_r, IH. reflexivity.
Qed.

Lemma chunks_ascii_app a x :
  Forall is_ascii a ->
  chunks (a ++ x) = (map (fun b => (b, [b])) a ++ chunks x)%list.
Proof.
  induction 1 as [|b a Hb _ IH]; [reflexivity|].
  cbn [app map]. rewrite chunks_step by discriminate.
  unfold utf8_DecodeRune, RuneSelf. unfold is_ascii in Hb.
  destruct (Z.ltb_spec b 0x80); [|lia].
  cbn [fst snd firstn skipn]. now rewrite IH.
Qed.

Lemma asciiSpace_is_ascii b : asciiSpace b = true -> is_ascii b.
Proof.
  unfold asciiSpace, is_ascii.
  rewrite orb_true_iff, andb_true_iff, !Z.leb_le, Z.eqb_eq. lia.
Qed.

Lemma asciiSpace_IsSpace b : asciiSpace b = true -> unicode_IsSpace b = true.
Proof.
  intros H. pose proof (asciiSpace_is_ascii b H) as A. unfold is_ascii in A.
  unfold unicode_IsSpace, asciiSpace in *.
  destruct (Z.leb_spec 0 b); [|lia]. destruct (Z.leb_spec b 0xFF); [|lia].
  cbn [andb]. rewrite H. reflexivity.
Qed.

Lemma asciiSpace_not_continuation b : asciiSpace b = true -> cont b = false.
Proof.
  intros H. apply asciiSpace_is_ascii in H. unfold is_ascii in H. unfold cont.
  destruct (Z.leb_spec 0x80 b); [lia|reflexivity].
Qed.

Lemma dropSpaces_all a x :
  Forall (fun c => unicode_IsSpace (fst c) = true) a ->
  dropSpaces (a ++ x) = dropSpaces x.
Proof.
  induction 1 as [|c a Hc _ IH]; [reflexivity|].
  cbn [app dropSpaces]. now rewrite Hc.
Qed.

Lemma dropSpaces_app_keep c b :
  dropSpaces c <> [] -> dropSpaces (c ++ b) = (dropSpaces c ++ b)%list.
Proof.
  induction c as [|x c IH]; [intros H; now contradiction H|].
  cbn [app dropSpaces]. destruct (unicode_IsSpace (fst x)); [exact IH|reflexivity].
Qed.

Lemma trimSpaces_padded a c b :
  Forall (fun c => unicode_IsSpace (fst c) = true) a ->
  Forall (fun c => unicode_IsSpace (fst c) = true) b ->
  trimSpaces (a ++ c ++ b) = trimSpaces c.
Proof.
  intros Ha Hb. unfold trimSpaces. rewrite (dropSpaces_all a _ Ha).
  destruct (dropSpaces c) as [|x l] eqn:E.
  - replace (dropSpaces (c ++ b)) with (@nil (Z * list Z)); [reflexivity|].
    symmetry. clear Ha. induction c as [|y c IH].
    + cbn [app]. rewrite <- (app_nil_r b). now rewrite dropSpaces_all.
    + cbn [app dropSpaces] in *.
      destruct (unicode_IsSpace (fst y)); [now apply IH|discriminate].
  - rewrite dropSpaces_app_keep by (rewrite E; discriminate).
    rewrite E, rev_app_distr.
    rewrite dropSpaces_all; [reflexivity|]. now apply Forall_rev.
Qed.

Lemma TrimSpaceBytes_padded a p b :
  Forall (fun x => asciiSpace x = true) a ->
  Forall (fun x => asciiSpace x = true) b ->
  TrimSpaceBytes (a ++ p ++ b) = TrimSpaceBytes p.
Proof.
  intros Ha Hb. unfold TrimSpaceBytes. f_equal. f_equal.
  assert (Sp : forall l, Forall (fun x => asciiSpace x = true) l ->
                 Forall (fun c => unicode_IsSpace (fst c) = true)
                        (map (fun b => (b, [b])) l)).
  { intros l Hl. apply Forall_map. eapply Forall_impl; [|exact Hl].
    intros x Hx. now apply asciiSpace_IsSpace. }
  assert (As : forall l, Forall (fun x => asciiSpace x = true) l ->
                 Forall is_ascii l).
  { intros l Hl. eapply Forall_impl; [|exact Hl]. apply asciiSpace_is_ascii. }
  rewrite (chunks_ascii_app a _ (As a Ha)).
  destruct b as [|b0 b].
  - rewrite app_nil_r.
    rewrite <- (app_nil_r (chunks p)) at 1.
    now apply trimSpaces_padded; [apply Sp|constructor].
  - inversion Hb as [|? ? Hb0 Hb']; subst.
    rewrite chunks_app_boundary by now apply asciiSpace_not_continuation.
    rewrite (chunks_ascii (b0 :: b) (As _ Hb)).
    now apply trimSpaces_padded; apply Sp.
Qed.

Lemma bytes_app s t : bytes (s ++ t) = (bytes s ++ bytes t)%list.
Proof.
  induction s as [|c s IH]; cbn [String.append bytes app]; [reflexivity|].
  now rewrite IH.
Qed.

(** X8: ASCII white space (tab, line feed, vertical tab, form feed,
    carriage return, space) before and after a string does not change its
    trimmed lower-case form, whatever bytes the string holds; the three
    parsers and [NewOrder] therefore treat the padded argument like the
    bare one. *)
Theorem padding_is_ignored before after s :
  blank before -> blank after ->
  normalize (before ++ s ++ after) = normalize s /\
  (forall symbol orderType orderStatus qty price w,
     fst (fst (NewOrder symbol orderType (before ++ s ++ after) orderStatus
                        qty price w))
     = fst (fst (NewOrder symbol orderType s orderStatus qty price w))).
Proof.
  intros Hb Ha. unfold blank in *.
  assert (N : normalize (before ++ s ++ after) = normalize s).
  { rewrite !normalize_bytes, !bytes_app.
    now rewrite TrimSpaceBytes_padded. }
  split; [exact N|]. intros.
  now apply NewOrder_same_normal_forms.
Qed.

Lemma blank_normal_form s : blank s -> normalize s = "".
Proof.
  intros Hs. unfold blank in Hs.
  rewrite normalize_bytes.
  rewrite <- (app_nil_r (bytes s)).
  change (bytes s ++ [])%list with (bytes s ++ [] ++ [])%list.
  rewrite TrimSpaceBytes_padded by (assumption || constructor).
  reflexivity.
Qed.

(** X9: a string of ASCII white space only, the empty string included,
    is refused as a status, as a side and as a type, and [NewOrder] with
    such a side returns an error. *)
Theorem blank_is_refused s :
  blank s ->
  snd (parseStatus s) <> None /\ snd (parseSide s) <> None /\
  snd (parseType s) <> None /\
  (forall symbol orderType orderStatus qty price w,
     exists err,
       NewOrder symbol orderType s orderStatus qty price w
       = ((None, Some err), w)).
Proof.
  intros Hs.
  assert (N : normalize s = "").
  { pose proof (blank_normal_form s) as P. apply P. exact Hs. }
  destruct parse_ok_iff as (PS & PD & PT).
  assert (D : snd (parseSide s) <> None).
  { rewrite PD, N. intros [H|H]; discriminate. }
  repeat split.
  - rewrite PS, N. intros [H|[H|[H|[H|H]]]]; discriminate.
  - exact D.
  - rewrite PT, N. intros [H|H]; discriminate.
  - intros. apply NewOrder_rejects. unfold validationPasses.
    destruct (snd (parseStatus orderStatus)); [reflexivity|].
    destruct (snd (parseSide s)); [reflexivity|congruence].
Qed.

(** ** Letter case of an ASCII argument *)

Lemma asciiSpace_asciiLower b : asciiSpace (asciiLower b) = asciiSpace b.
Proof.
  unfold asciiLower.
  destruct (Z.leb_spec 0x41 b); destruct (Z.leb_spec b 0x5A); cbn [andb];
    try reflexivity.
  unfold asciiSpace. zcases; try reflexivity; lia.
Qed.

Lemma dropAsciiSpaces_lower p :
  dropAsciiSpaces (map asciiLower p) = map asciiLower (dropAsciiSpaces p).
Proof.
  induction p as [|b p IH]; [reflexivity|].
  cbn [map dropAsciiSpaces]. rewrite asciiSpace_asciiLower.
  destruct (asciiSpace b); [exact IH|reflexivity].
Qed.

Lemma trimAsciiSpaces_lower p :
  trimAsciiSpaces (map asciiLower p) = map asciiLower (trimAsciiSpaces p).
Proof.
  unfold trimAsciiSpaces.
  now rewrite dropAsciiSpaces_lower, <- map_rev, dropAsciiSpaces_lower, map_rev.
Qed.

Lemma normalize_ascii s :
  Forall is_ascii (bytes s) ->
  normalize s = of_bytes (trimAsciiSpaces (map asciiLower (bytes s))).
Proof.
  intros Hs. rewrite normalize_bytes, (TrimSpaceBytes_ascii _ Hs).
  rewrite ToLowerBytes_ascii, trimAsciiSpaces_lower; [reflexivity|].
  unfold trimAsciiSpaces. apply Forall_rev, dropAsciiSpaces_ascii, Forall_rev.
  now apply dropAsciiSpaces_ascii.
Qed.

(** X10: on an argument of ASCII bytes the trimmed lower-case form is
    computed byte by byte, capitals shifted to small letters and ASCII
    white space cut off both ends; two ASCII arguments that differ only
    in the case of their letters are therefore parsed alike, and
    [NewOrder] returns the same order for both. *)
Theorem ascii_case_is_ignored s s' :
  Forall is_ascii (bytes s) -> Forall is_ascii (bytes s') ->
  map asciiLower (bytes s') = map asciiLower (bytes s) ->
  normalize s = of_bytes (trimAsciiSpaces (map asciiLower (bytes s))) /\
  normalize s' = normalize s /\
  (forall symbol orderType orderStatus qty price w,
     fst (fst (NewOrder symbol orderType s' orderStatus qty price w))
     = fst (fst (NewOrder symbol orderType s orderStatus qty price w))).
Proof.
  intros Hs Hs' E.
  assert (N : normalize s' = normalize s)
    by now rewrite (normalize_ascii s Hs), (normalize_ascii s' Hs'), E.
  split; [now apply normalize_ascii|]. split; [exact N|].
  intros. now apply NewOrder_same_normal_forms.
Qed.

(** ** Bytes that are not UTF-8 *)

Lemma dropSpaces_keeps c cs :
  In c cs -> unicode_IsSpace (fst c) = false -> In c (dropSpaces cs).
Proof.
  intros Hin Hc. induction cs as [|x cs IH]; [contradiction|].
  cbn [dropSpaces]. destruct (unicode_IsSpace (fst x)) eqn:E; [|exact Hin].
  destruct Hin as [->|Hin]; [congruence|now apply IH].
Qed.

Lemma trimSpaces_keeps c cs :
  In c cs -> unicode_IsSpace (fst c) = false -> In c (trimSpaces cs).
Proof.
  intros Hin Hc. unfold trimSpaces.
  apply in_rev. rewrite rev_involutive.
  apply dropSpaces_keeps; [|exact Hc].
  apply -> in_rev. now apply dropSpaces_keeps.
Qed.

Lemma replaced_normal_form s :
  lowerTable RuneError = RuneError ->
  In RuneError (runes (bytes s)) ->
  In 0xEF (bytes (normalize s)).
Proof.
  intros T Hin.
  rewrite normalize_bytes, bytes_of_bytes by apply MapBytes_range.
  unfold ToLowerBytes, MapBytes. apply in_flat_map.
  exists RuneError. split.
  - unfold runes in *. rewrite chunks_TrimSpaceBytes.
    apply in_map_iff in Hin as (c & Hc & Hin).
    apply in_map_iff. exists c. split; [exact Hc|].
    apply trimSpaces_keeps; [exact Hin|]. rewrite Hc. reflexivity.
  - replace (unicode_ToLower RuneError) with RuneError
      by (unfold unicode_ToLower; cbn; now rewrite T).
    cbn. tauto.
Qed.

(** X11: when the case table leaves U+FFFD alone, a string in which
    ranging finds U+FFFD (a byte that belongs to no legal UTF-8 encoding,
    or the replacement character itself) is refused as a status, as a side
    and as a type, wherever in the string it stands. *)
Theorem replacement_character_is_refused s :
  lowerTable RuneError = RuneError ->
  In RuneError (runes (bytes s)) ->
  snd (parseStatus s) <> None /\ snd (parseSide s) <> None /\
  snd (parseType s) <> None.
Proof.
  intros T Hin. pose proof (replaced_normal_form s T Hin) as B.
  destruct parse_ok_iff as (PS & PD & PT).
  rewrite PS, PD, PT.
  repeat split; intros H;
    repeat (destruct H as [H|H]); rewrite H in B; cbn in B;
    repeat (destruct B as [B|B]; [discriminate|]); exact B.
Qed.

End Stox.

(** * Closed instances *)

Lemma sampleLower_cases r :
  (0x41 <= r <= 0x5A /\ unicode_ToLower sampleLower r = r + 32) \/
  (0xC0 <= r <= 0xDE /\ r <> 0xD7 /\ unicode_ToLower sampleLower r = r + 32) \/
  (r = 0x130 /\ unicode_ToLower sampleLower r = 0x69) \/
  (r = 0x212A /\ unicode_ToLower sampleLower r = 0x6B) \/
  (r = 0x212B /\ unicode_ToLower sampleLower r = 0xE5) \/
  (unicode_ToLower sampleLower r = r /\
   ~ 0x41 <= r <= 0x5A /\ ~ (0xC0 <= r <= 0xDE /\ r <> 0xD7) /\
   r <> 0x130 /\ r <> 0x212A /\ r <> 0x212B).
Proof.
  unfold unicode_ToLower, sampleLower. zcases; lia.
Qed.

Lemma sampleLower_valid r : ValidRune r -> ValidRune (unicode_ToLower sampleLower r).
Proof.
  unfold ValidRune, MaxRune.
  destruct (sampleLower_cases r)
    as [(H & ->)|[(H & N & ->)|[(H & ->)|[(H & ->)|[(H & ->)|(-> & _)]]]]]; lia.
Qed.

Lemma sampleLower_idem r :
  unicode_ToLower sampleLower (unicode_ToLower sampleLower r) = unicode_ToLower sampleLower r.
Proof.
  destruct (sampleLower_cases r)
    as [(H & ->)|[(H & N & ->)|[(H & ->)|[(H & ->)|[(H & ->)|(-> & H)]]]]];
    unfold unicode_ToLower, sampleLower; zcases; lia.
Qed.

Lemma unicode_IsSpace_true r :
  unicode_IsSpace r = true ->
  0x09 <= r <= 0x0D \/ r = 0x20 \/ r = 0x85 \/ r = 0xA0 \/ r = 0x1680 \/
  0x2000 <= r <= 0x200A \/ r = 0x2028 \/ r = 0x2029 \/ r = 0x202F \/
  r = 0x205F \/ r = 0x3000.
Proof.
  unfold unicode_IsSpace.
  destruct (Z.leb_spec 0 r); cbn [andb];
    [destruct (Z.leb_spec r 0xFF)|]; cbn [andb];
    rewrite ?orb_true_iff, ?andb_true_iff, ?Z.leb_le, ?Z.eqb_eq; lia.
Qed.

Lemma sampleLower_space r :
  unicode_IsSpace (unicode_ToLower sampleLower r) = unicode_IsSpace r.
Proof.
  destruct (sampleLower_cases r)
    as [(H & ->)|[(H & N & ->)|[(H & ->)|[(H & ->)|[(H & ->)|(-> & H)]]]]];
    try reflexivity;
    match goal with
    | |- unicode_IsSpace ?a = unicode_IsSpace ?b =>
      destruct (unicode_IsSpace a) eqn:Ea; [apply unicode_IsSpace_true in Ea; lia|];
      destruct (unicode_IsSpace b) eqn:Eb; [apply unicode_IsSpace_true in Eb; lia|];
      reflexivity
    end.
Qed.

(** ** Concrete inputs *)

(** An order constructed with the status "filled" is not PENDING. *)
Lemma NewOrder_filled_at_construction :
  exists o,
    fst (NewOrder sampleLower "AAPL" "LIMIT" "BUY" "filled" 10 5 w0)
    = (Some o, None) /\
    Status o <> PENDING.
Proof.
  exists (builtOrder sampleLower "AAPL" "LIMIT" "BUY" "filled" 10 5 w0).
  split; [vm_compute; reflexivity|vm_compute; discriminate].
Qed.

Lemma NewOrder_status_from_argument_witness :
  validationPasses sampleLower "LIMIT" "BUY" " Filled " 10 5 = true /\
  exists o w',
    NewOrder sampleLower "AAPL" "LIMIT" "BUY" " Filled " 10 5 w0
    = ((Some o, None), w') /\
    Status o = fst (parseStatus sampleLower " Filled ") /\
    (Status o = PENDING <-> normalize sampleLower " Filled " = "pending").
Proof.
  split; [vm_compute; reflexivity|].
  apply (proj1 (NewOrder_status_from_argument sampleLower
                  "AAPL" "LIMIT" "BUY" " Filled " 10 5 w0)).
  vm_compute; reflexivity.
Defined.

(** The empty symbol is accepted. *)
Lemma NewOrder_accepts_empty_symbol :
  exists o,
    fst (NewOrder sampleLower "" "LIMIT" "BUY" "pending" 10 5 w0)
    = (Some o, None) /\
    Symbol o = "".
Proof.
  exists (builtOrder sampleLower "" "LIMIT" "BUY" "pending" 10 5 w0).
  split; vm_compute; reflexivity.
Qed.

Lemma NewOrder_symbol_unchecked_witness :
  validationPasses sampleLower "LIMIT" "BUY" "pending" 10 5 = true /\
  exists o w',
    NewOrder sampleLower "" "LIMIT" "BUY" "pending" 10 5 w0
    = ((Some o, None), w') /\ Symbol o = "".
Proof.
  split; [vm_compute; reflexivity|].
  apply (proj2 (proj2 (NewOrder_symbol_unchecked sampleLower
                         "AAPL" "LIMIT" "BUY" "pending" 10 5 w0))).
  vm_compute; reflexivity.
Defined.

Lemma NewOrder_quantity_positive_witness :
  0 <= 0 /\
  exists err,
    NewOrder sampleLower "AAPL" "LIMIT" "BUY" "pending" 0 5 w0
    = ((None, Some err), w0).
Proof.
  split; [lia|].
  apply (proj1 (NewOrder_quantity_positive sampleLower
                  "AAPL" "LIMIT" "BUY" "pending" 0 5 w0)).
  lia.
Defined.

(** The call the program's [main] makes: a LIMIT order at price 0. *)
Lemma NewOrder_price_rule_witness :
  parseType sampleLower "LIMIT" = (LIMIT, None) /\
  exists err,
    NewOrder sampleLower "AAPL" "LIMIT" "BUY" "pending" 10 0 w0
    = ((None, Some err), w0).
Proof.
  split; [vm_compute; reflexivity|].
  apply (proj1 (NewOrder_price_rule sampleLower
                  "AAPL" "LIMIT" "BUY" "pending" 10 0 w0)).
  - vm_compute; reflexivity.
  - lia.
Defined.

Lemma NewOrder_side_and_type_witness :
  parseSide sampleLower "hold" <> (BUY, None) /\
  parseSide sampleLower "hold" <> (SELL, None) /\
  exists err,
    NewOrder sampleLower "AAPL" "LIMIT" "hold" "pending" 10 5 w0
    = ((None, Some err), w0).
Proof.
  assert (H : parseSide sampleLower "hold" <> (BUY, None) /\
              parseSide sampleLower "hold" <> (SELL, None))
    by (split; vm_compute; discriminate).
  split; [apply H|]. split; [apply H|].
  apply (proj1 (NewOrder_side_and_type sampleLower
                  "AAPL" "LIMIT" "hold" "pending" 10 5 w0)).
  left. exact H.
Defined.

Lemma NewOrder_remaining_is_quantity_witness :
  let o := builtOrder sampleLower "AAPL" "MARKET" "sell" "pending" 10 (-3) w0 in
  fst (fst (NewOrder sampleLower "AAPL" "MARKET" "sell" "pending" 10 (-3) w0))
  = Some o /\
  RemainingQuantity o = Quantity o /\ Quantity o = 10.
Proof.
  intros o. split; [vm_compute; reflexivity|].
  apply (NewOrder_remaining_is_quantity sampleLower
           "AAPL" "MARKET" "sell" "pending" 10 (-3) w0 o).
  vm_compute; reflexivity.
Defined.

(** An order constructed with the status "filled" is FILLED with all of its
    quantity remaining. *)
Lemma NewOrder_filled_with_remainder :
  exists o,
    fst (NewOrder sampleLower "AAPL" "LIMIT" "BUY" "filled" 10 5 w0)
    = (Some o, None) /\
    0 <= RemainingQuantity o <= Quantity o /\
    ~ (Status o = FILLED <-> RemainingQuantity o = 0).
Proof.
  exists (builtOrder sampleLower "AAPL" "LIMIT" "BUY" "filled" 10 5 w0).
  split; [vm_compute; reflexivity|]. split.
  - vm_compute. split; discriminate.
  - intros [H _]. specialize (H eq_refl). vm_compute in H. discriminate.
Qed.

Lemma NewOrder_remaining_bounds_witness :
  let o := builtOrder sampleLower "AAPL" "LIMIT" "BUY" "filled" 10 5 w0 in
  fst (fst (NewOrder sampleLower "AAPL" "LIMIT" "BUY" "filled" 10 5 w0))
  = Some o /\
  0 <= RemainingQuantity o <= Quantity o /\
  RemainingQuantity o <> 0 /\
  (RemainingQuantity o = 0 -> Status o = FILLED) /\
  (Status o = FILLED <-> normalize sampleLower "filled" = "filled").
Proof.
  intros o. split; [vm_compute; reflexivity|].
  apply (NewOrder_remaining_bounds sampleLower
           "AAPL" "LIMIT" "BUY" "filled" 10 5 w0 o).
  vm_compute; reflexivity.
Defined.

(** A failed parse quotes its argument: the error for " x" is not the error
    for "x", its trimmed lower-case form. *)
Lemma parseSide_error_quotes_argument :
  normalize sampleLower " X" = "x" /\
  parseSide sampleLower " X" <> parseSide sampleLower (normalize sampleLower " X").
Proof.
  split; [vm_compute; reflexivity|].
  intros H. vm_compute in H. discriminate.
Qed.

Lemma parsers_agree_on_normal_form_witness :
  (forall r, ValidRune r -> ValidRune (unicode_ToLower sampleLower r)) /\
  (forall r, ValidRune r ->
     unicode_ToLower sampleLower (unicode_ToLower sampleLower r)
     = unicode_ToLower sampleLower r) /\
  (forall r, ValidRune r -> unicode_IsSpace (unicode_ToLower sampleLower r) = unicode_IsSpace r) /\
  agree "invalid order side: " (parseSide sampleLower)
        "  BUY " (normalize sampleLower "  BUY ").
Proof.
  split; [exact sampleLower_valid|].
  split; [exact (fun r _ => sampleLower_idem r)|].
  split; [exact (fun r _ => sampleLower_space r)|].
  apply (parsers_agree_on_normal_form sampleLower sampleLower_valid
           (fun r _ => sampleLower_idem r) (fun r _ => sampleLower_space r)
           "  BUY ").
Defined.

(** ** Runs of the code *)

(** The program's [main]: a LIMIT order at price 0 is refused. *)
Example main_is_refused :
  fst (NewOrder sampleLower "AAPL" "LIMIT" "BUY" "pending" 10 0 w0)
  = (None,
     Some (wrapError "failed to create order: price must be greater than 0"
                     (errorString "price must be greater than 0"))).
Proof. vm_compute; reflexivity. Qed.

Example order_is_built :
  NewOrder sampleLower "AAPL" " limit" "Sell " "PENDING" 10 5 w0
  = ((Some {| OrderID := 7%N; Symbol := "AAPL"; Side := SELL; Type_ := LIMIT;
              Quantity := 10; RemainingQuantity := 10; Price := 5;
              Status := PENDING; CreateAt := 1000; UpdatedAt := 1001 |},
      None),
     afterNewOrder w0).
Proof. vm_compute; reflexivity. Qed.

(** White space and capitals beyond ASCII: a no-break space U+00A0 in
    front, the Kelvin sign U+212A for the k, an en space U+2003 behind. *)
Example parseType_kelvin :
  parseType sampleLower
    (of_bytes [0x20; 0xC2; 0xA0; 0x4D; 0x41; 0x52; 0xE2; 0x84; 0xAA;
               0x45; 0x54; 0xE2; 0x80; 0x83])
  = (MARKET, None).
Proof. vm_compute; reflexivity. Qed.

(** A byte sequence cut short is read as U+FFFD, byte by byte. *)
Example runes_of_truncated :
  runes [0x4D; 0xE2; 0x84; 0x45] = [0x4D; RuneError; RuneError; 0x45].
Proof. vm_compute; reflexivity. Qed.

(** ** Further concrete inputs *)

Lemma NewOrder_reports_first_failure_witness :
  snd (parseStatus sampleLower "cancelled") <> None /\
  NewOrder sampleLower "AAPL" "stop" "hold" "cancelled" 0 0 w0
  = ((None,
      Some (wrapError
              "failed to create order: invalid order status: cancelled"
              (errorString "invalid order status: cancelled"))), w0).
Proof.
  assert (H : snd (parseStatus sampleLower "cancelled") <> None)
    by (vm_compute; discriminate).
  split; [exact H|].
  apply (proj1 (NewOrder_reports_first_failure sampleLower
                  "AAPL" "stop" "hold" "cancelled" 0 0 w0)).
  exact H.
Defined.

Lemma NewOrder_error_chain_witness :
  exists cause,
    Unwrap (wrapError "failed to create order: qunatity must be greater than 0"
                      (errorString "qunatity must be greater than 0"))
    = Some cause /\
    Unwrap cause = None /\
    Error (wrapError "failed to create order: qunatity must be greater than 0"
                     (errorString "qunatity must be greater than 0"))
    = ("failed to create order: " ++ Error cause)%string.
Proof.
  apply (NewOrder_error_chain sampleLower "AAPL" "LIMIT" "BUY" "pending" 0 5 w0).
  vm_compute; reflexivity.
Defined.

Lemma parsers_distinguish_keywords_witness :
  snd (parseStatus sampleLower "Filled") = None /\
  snd (parseStatus sampleLower " filled ") = None /\
  (fst (parseStatus sampleLower "Filled")
   = fst (parseStatus sampleLower " filled ") <->
   normalize sampleLower "Filled" = normalize sampleLower " filled ").
Proof.
  assert (H : snd (parseStatus sampleLower "Filled") = None)
    by (vm_compute; reflexivity).
  assert (H' : snd (parseStatus sampleLower " filled ") = None)
    by (vm_compute; reflexivity).
  split; [exact H|]. split; [exact H'|].
  apply (proj1 (proj2 (proj2 (proj2 (parsers_distinguish_keywords sampleLower))))
           "Filled" " filled " H H').
Defined.

Lemma NewOrder_successive_orders_witness :
  let o := builtOrder sampleLower "AAPL" "LIMIT" "BUY" "pending" 10 5 w1 in
  let wa := afterNewOrder w1 in
  let o' := builtOrder sampleLower "MSFT" "MARKET" "SELL" "pending" 3 0 wa in
  let wb := afterNewOrder wa in
  NewOrder sampleLower "AAPL" "LIMIT" "BUY" "pending" 10 5 w1
  = ((Some o, None), wa) /\
  NewOrder sampleLower "MSFT" "MARKET" "SELL" "pending" 3 0 wa
  = ((Some o', None), wb) /\
  (forall n m, entropy w1 n = entropy w1 m -> n = m) /\
  (forall n m, (n <= m)%nat -> wall w1 n <= wall w1 m) /\
  drawn wb = (drawn w1 + 2)%nat /\ ticks wb = (ticks w1 + 4)%nat /\
  OrderID o <> OrderID o' /\
  CreateAt o <= UpdatedAt o /\ UpdatedAt o <= CreateAt o' /\
  CreateAt o' <= UpdatedAt o'.
Proof.
  intros o wa o' wb.
  assert (H : NewOrder sampleLower "AAPL" "LIMIT" "BUY" "pending" 10 5 w1
              = ((Some o, None), wa)) by (vm_compute; reflexivity).
  assert (H' : NewOrder sampleLower "MSFT" "MARKET" "SELL" "pending" 3 0 wa
               = ((Some o', None), wb)) by (vm_compute; reflexivity).
  assert (Hinj : forall n m, entropy w1 n = entropy w1 m -> n = m)
    by (intros n m E; unfold w1 in E; cbn [entropy] in E; lia).
  assert (Hmono : forall n m, (n <= m)%nat -> wall w1 n <= wall w1 m)
    by (intros n m L; unfold w1; cbn [wall]; lia).
  split; [exact H|]. split; [exact H'|].
  split; [exact Hinj|]. split; [exact Hmono|].
  destruct (NewOrder_successive_orders sampleLower _ _ _ _ _ _ _ _ _ _ _ _
              w1 o wa o' wb H H')
    as ((_ & _ & Hd & Ht & _) & _ & Hid & Htime).
  split; [exact Hd|]. split; [exact Ht|].
  split; [exact (Hid Hinj)|]. exact (Htime Hmono).
Defined.

Lemma NewOrder_by_normal_forms_witness :
  normalize sampleLower " Limit" = normalize sampleLower "limit" /\
  fst (fst (NewOrder sampleLower "AAPL" " Limit" "SELL " "PENDING" 10 5 w0))
  = fst (fst (NewOrder sampleLower "AAPL" "limit" "sell" "pending" 10 5 w0)).
Proof.
  assert (H : normalize sampleLower " Limit" = normalize sampleLower "limit")
    by (vm_compute; reflexivity).
  split; [exact H|].
  apply (proj1 (NewOrder_by_normal_forms sampleLower
                  "AAPL" "limit" "sell" "pending" " Limit" "SELL " "PENDING"
                  10 5 w0 H
                  ltac:(vm_compute; reflexivity) ltac:(vm_compute; reflexivity))).
Defined.

Lemma padding_is_ignored_witness :
  blank (of_bytes [0x09; 0x20]) /\ blank (of_bytes [0x0D; 0x0A]) /\
  normalize sampleLower (of_bytes [0x09; 0x20] ++ "Sell" ++ of_bytes [0x0D; 0x0A])
  = normalize sampleLower "Sell".
Proof.
  assert (B : blank (of_bytes [0x09; 0x20])) by (repeat constructor).
  assert (A : blank (of_bytes [0x0D; 0x0A])) by (repeat constructor).
  split; [exact B|]. split; [exact A|].
  apply (proj1 (padding_is_ignored sampleLower _ _ "Sell" B A)).
Defined.

Lemma blank_is_refused_witness :
  blank "   " /\ snd (parseSide sampleLower "   ") <> None.
Proof.
  assert (B : blank "   ") by (repeat constructor).
  split; [exact B|].
  apply (proj1 (proj2 (blank_is_refused sampleLower "   " B))).
Defined.

Lemma ascii_case_is_ignored_witness :
  Forall is_ascii (bytes "market") /\ Forall is_ascii (bytes "MarKet") /\
  normalize sampleLower "MarKet" = normalize sampleLower "market".
Proof.
  assert (H : Forall is_ascii (bytes "market"))
    by (repeat constructor; cbn; lia).
  assert (H' : Forall is_ascii (bytes "MarKet"))
    by (repeat constructor; cbn; lia).
  split; [exact H|]. split; [exact H'|].
  apply (proj1 (proj2 (ascii_case_is_ignored sampleLower "market" "MarKet"
                         H H' ltac:(vm_compute; reflexivity)))).
Defined.

(** "buy" followed by the byte 0xFF. *)
Lemma replacement_character_is_refused_witness :
  sampleLower RuneError = RuneError /\
  In RuneError (runes (bytes (of_bytes [0x62; 0x75; 0x79; 0xFF]))) /\
  snd (parseSide sampleLower (of_bytes [0x62; 0x75; 0x79; 0xFF])) <> None.
Proof.
  assert (T : sampleLower RuneError = RuneError) by reflexivity.
  assert (H : In RuneError (runes (bytes (of_bytes [0x62; 0x75; 0x79; 0xFF]))))
    by (vm_compute; tauto).
  split; [exact T|]. split; [exact H|].
  apply (proj1 (proj2 (replacement_character_is_refused sampleLower _ T H))).
Defined.

(** A quantity of 0 with everything else in order: no order, an error, the
    world as it was. *)
Lemma NewOrder_order_xor_error_witness :
  validationPasses sampleLower "LIMIT" "BUY" "pending" 0 5 = false /\
  exists err,
    NewOrder sampleLower "AAPL" "LIMIT" "BUY" "pending" 0 5 w0
    = ((None, Some err), w0).
Proof.
  assert (V : validationPasses sampleLower "LIMIT" "BUY" "pending" 0 5 = false)
    by (vm_compute; reflexivity).
  split; [exact V|].
  destruct (NewOrder_order_xor_error sampleLower
              "AAPL" "LIMIT" "BUY" "pending" 0 5 w0)
    as (_ & _ & _ & _ & R & _).
  exact (R V).
Defined.
